(** * dynamic_library.h: path normalisation, directory-scoped loading and
      the DynamicLibrary handle

    A shallow embedding of [src/dynamic_library.h].  Wide strings are lists
    of code units, [std::wstring::size_type] is a 64-bit unsigned integer
    with its wrap-around written out (a string is shorter than [npos], so
    a position inside it does not wrap), and the calls into the operating
    system are functions over an abstract OS state whose invocations are
    recorded in a call log. *)

From Stdlib Require Import Ascii String.
From Stdlib Require Import ZArith List Bool Lia.
Import ListNotations.

Local Open Scope Z_scope.

(** ** Wide strings *)

Module WString.

(** A [wchar_t] code unit. *)
Abbreviation wchar_t := Z (only parsing).

(** [std::wstring], by value. *)
Abbreviation wstring := (list wchar_t) (only parsing).

(** The wide literal [L"..."] of an ASCII text. *)
Definition L (s : string) : wstring :=
  map (fun a => Z.of_N (N_of_ascii a)) (list_ascii_of_string s).

(** [std::wstring::size_type]: unsigned, 64 bits wide. *)
Definition size_bits : Z := 64.
Definition size_modulus : Z := 2 ^ size_bits.
Definition wrap (z : Z) : Z := z mod size_modulus.

(** [std::wstring::npos], the all-ones value. *)
Definition npos : Z := size_modulus - 1.

(** [path.length()]. *)
Definition wlength (path : wstring) : Z := Z.of_nat (length path).

(** [path[i]]; the position one past the end holds the terminator. *)
Definition at_ (path : wstring) (i : Z) : wchar_t := nth (Z.to_nat i) path 0.

(** [path.resize(n)]: cut down to [n] units, or pad with the null unit. *)
Definition resize (path : wstring) (n : Z) : wstring :=
  firstn (Z.to_nat n) path ++ repeat 0 (Z.to_nat n - length path).

(** [path.empty()]. *)
Definition empty (path : wstring) : bool :=
  match path with [] => true | _ :: _ => false end.

(** Membership of a code unit in the first [n] units of [chars]. *)
Definition among (c : wchar_t) (chars : wstring) (n : Z) : bool :=
  existsb (Z.eqb c) (firstn (Z.to_nat n) chars).

(** The scan of [find_last_of]: [i] is the index of the head of [s] and
    [acc] the last match seen so far. *)
Fixpoint find_last_from (chars : wstring) (n : Z) (i : Z) (s : wstring)
    (acc : Z) : Z :=
  match s with
  | [] => acc
  | c :: s' =>
      find_last_from chars n (i + 1) s' (if among c chars n then i else acc)
  end.

(** [path.find_last_of(chars, npos, n)]: the last index holding one of the
    first [n] units of [chars], or [npos]. *)
Definition find_last_of (path : wstring) (chars : wstring) (n : Z) : Z :=
  find_last_from chars n 0 path npos.

End WString.

Import WString.

(** ** The operating system boundary *)

Module Win32.

(** [HMODULE] and [FARPROC] are addresses; the null pointer is 0. *)
Abbreviation HMODULE := Z (only parsing).
Abbreviation FARPROC := Z (only parsing).
Definition nullptr : Z := 0.

(** Modelled from the spec: the platform's maximum path buffer, [MAX_PATH] of
    the Windows headers, which the source includes but does not define. *)
Definition MAX_PATH : Z := 260.

(** The primitives the header calls, over an abstract OS state.  A string
    argument is the string whose [c_str()] the call receives, and
    [sys_GetCurrentDirectory] answers with the returned length and the text
    left in the buffer.  [sys_GetModuleHandle] and [sys_GetProcAddress] look
    the state up and leave it as it is. *)
Record Api (OS : Type) : Type := {
  sys_GetCurrentDirectory : Z -> OS -> (Z * wstring) * OS;
  sys_SetCurrentDirectory : wstring -> OS -> Z * OS;
  sys_LoadLibraryW : wstring -> OS -> HMODULE * OS;
  sys_FreeLibrary : HMODULE -> OS -> Z * OS;
  sys_GetModuleHandle : wstring -> OS -> HMODULE;
  sys_GetProcAddress : HMODULE -> string -> OS -> FARPROC
}.

Arguments sys_GetCurrentDirectory {OS} _ _ _.
Arguments sys_SetCurrentDirectory {OS} _ _ _.
Arguments sys_LoadLibraryW {OS} _ _ _.
Arguments sys_FreeLibrary {OS} _ _ _.
Arguments sys_GetModuleHandle {OS} _ _ _.
Arguments sys_GetProcAddress {OS} _ _ _ _.

(** One entry of the call log per call into the OS. *)
Inductive Call : Type :=
| CallGetCurrentDirectory (nBufferLength : Z)
| CallSetCurrentDirectory (directory : wstring)
| CallLoadLibraryW (file_name : wstring)
| CallFreeLibrary (library : HMODULE)
| CallGetModuleHandle (library_name : wstring)
| CallGetProcAddress (library : HMODULE) (name : string).

(** The process as the header sees it: the OS state and the calls made so
    far, oldest first. *)
Record World (OS : Type) : Type := mkWorld {
  os_state : OS;
  calls : list Call
}.

Arguments mkWorld {OS} _ _.
Arguments os_state {OS} _.
Arguments calls {OS} _.

(** Code that calls into the OS: a state transformer over the world. *)
Definition M (OS A : Type) : Type := World OS -> A * World OS.

Definition ret {OS A : Type} (a : A) : M OS A := fun w => (a, w).

Definition bind {OS A B : Type} (c : M OS A) (k : A -> M OS B) : M OS B :=
  fun w => let (a, w') := c w in k a w'.

(** Perform one OS primitive and append it to the log. *)
Definition syscall {OS A : Type} (c : Call) (f : OS -> A * OS) : M OS A :=
  fun w =>
    let (a, s') := f (os_state w) in
    (a, mkWorld s' (calls w ++ [c])).

(** Look the OS state up and append the call to the log. *)
Definition query {OS A : Type} (c : Call) (f : OS -> A) : M OS A :=
  fun w => (f (os_state w), mkWorld (os_state w) (calls w ++ [c])).

(** The value a computation returns from [w], and the world it leaves. *)
Definition result {OS A : Type} (c : M OS A) (w : World OS) : A := fst (c w).
Definition after {OS A : Type} (c : M OS A) (w : World OS) : World OS :=
  snd (c w).

End Win32.

Import Win32.

Declare Scope os_scope.
Delimit Scope os_scope with os.
Notation "x <- c ;; k" := (bind c (fun x => k))
  (at level 61, c at next level, right associativity) : os_scope.
Notation "c ;;; k" := (bind c (fun _ => k))
  (at level 61, right associativity) : os_scope.

(** ** namespace internal: the path algorithm *)

Module internal.

(** [const wchar_t kSeparators[] = L"\\/"], terminator included. *)
Definition kSeparators : wstring := [92; 47; 0].

(** [arraysize(kSeparators)]. *)
Definition kSeparatorsLength : Z := wlength kSeparators.

(** [const wchar_t kCurrentDirectory[] = L"."], as assigned to a string. *)
Definition kCurrentDirectory : wstring := [46].

Definition FindDriveLetter (path : wstring) : Z :=
  if (wlength path >=? 2) && (at_ path 1 =? 58) &&
     (((at_ path 0 >=? 65) && (at_ path 0 <=? 90)) ||
      ((at_ path 0 >=? 97) && (at_ path 0 <=? 122)))
  then 1
  else npos.

(** The loop of [IsSeparator], over [i < kSeparatorsLength - 1]. *)
Fixpoint IsSeparator_from (character : wchar_t) (i : Z) (n : nat) : bool :=
  match n with
  | O => false
  | S n' =>
      if character =? at_ kSeparators i then true
      else IsSeparator_from character (i + 1) n'
  end.

Definition IsSeparator (character : wchar_t) : bool :=
  IsSeparator_from character 0 (Z.to_nat (kSeparatorsLength - 1)).

(** The [for] loop of [StripTrailingSeparators]; [pos] is the loop variable,
    which goes down by one in every round, whether or not the round strips. *)
Fixpoint strip_loop (start : Z) (pos : nat) (path : wstring)
    (last_stripped : Z) : wstring :=
  match pos with
  | O => path
  | S pos' =>
      if (Z.of_nat pos >? start) && IsSeparator (at_ path (Z.of_nat pos - 1))
      then
        if negb (Z.of_nat pos =? wrap (start + 1)) ||
           (last_stripped =? wrap (start + 2)) ||
           negb (IsSeparator (at_ path (start - 1)))
        then strip_loop start pos' (resize path (Z.of_nat pos - 1))
                        (Z.of_nat pos)
        else strip_loop start pos' path last_stripped
      else path
  end.

Definition StripTrailingSeparators (path : wstring) : wstring :=
  let start := wrap (FindDriveLetter path + 2) in
  strip_loop start (length path) path npos.

Definition GetParent (path : wstring) : wstring :=
  let path := StripTrailingSeparators path in
  let letter := FindDriveLetter path in
  let last_separator :=
    find_last_of path kSeparators (kSeparatorsLength - 1) in
  let path :=
    if last_separator =? npos then resize path (wrap (letter + 1))
    else if last_separator =? wrap (letter + 1)
    then resize path (wrap (letter + 2))
    else if (last_separator =? wrap (letter + 2)) &&
            IsSeparator (at_ path (wrap (letter + 1)))
    then resize path (wrap (letter + 3))
    else if negb (last_separator =? 0) then resize path last_separator
    else path in
  let path := StripTrailingSeparators path in
  if wlength path =? 0 then kCurrentDirectory else path.


(** ** namespace internal: directory context, loader and resolver *)

Section Loader.

Context {OS : Type} (api : Api OS).

Local Open Scope os_scope.

(** The wide string built from a null-terminated buffer. *)
Fixpoint wstring_of_buffer (buffer : wstring) : wstring :=
  match buffer with
  | [] => []
  | c :: buffer' => if c =? 0 then [] else c :: wstring_of_buffer buffer'
  end.

(** [bool GetCurrentDirectory(std::wstring* dir)]; [dir] is the value the
    out-parameter holds on entry, and the pair is the returned flag with the
    value it holds on exit. *)
Definition GetCurrentDirectory (dir : wstring) : M OS (bool * wstring) :=
  r <- syscall (CallGetCurrentDirectory MAX_PATH)
         (sys_GetCurrentDirectory api MAX_PATH) ;;
  let (len, system_buffer) := (r : Z * wstring) in
  if (len =? 0) || (len >? MAX_PATH) then ret (false, dir)
  else
    let dir_str := wstring_of_buffer system_buffer in
    ret (true, StripTrailingSeparators dir_str).

Definition SetCurrentDirectory (directory : wstring) : M OS bool :=
  r <- syscall (CallSetCurrentDirectory directory)
         (sys_SetCurrentDirectory api directory) ;;
  ret (negb (r =? 0)).

(** [::LoadLibraryW] as a [LoadLibraryFunction]. *)
Definition LoadLibraryW (file_name : wstring) : M OS HMODULE :=
  syscall (CallLoadLibraryW file_name) (sys_LoadLibraryW api file_name).

Definition LoadNativeLibraryHelper (library_path : wstring)
    (load_library_api : wstring -> M OS HMODULE) : M OS HMODULE :=
  let restore_directory := false in
  let current_directory : wstring := [] in
  r <- GetCurrentDirectory current_directory ;;
  let (captured, current_directory) := (r : bool * wstring) in
  restore_directory <-
    (if captured then
       let plugin_path := GetParent library_path in
       if negb (empty plugin_path) then
         SetCurrentDirectory plugin_path ;;; ret true
       else ret restore_directory
     else ret restore_directory) ;;
  module <- load_library_api library_path ;;
  (if (restore_directory : bool)
   then SetCurrentDirectory current_directory ;;; ret tt
   else ret tt) ;;;
  ret module.

(** [LoadLibrary(path, error)]; [error] is never written to. *)
Definition LoadLibrary (path : wstring) (error : option string)
    : M OS HMODULE :=
  LoadNativeLibraryHelper path LoadLibraryW.

Definition UnloadNativeLibrary (library : HMODULE) : M OS unit :=
  if library =? nullptr then ret tt
  else syscall (CallFreeLibrary library) (sys_FreeLibrary api library) ;;;
       ret tt.

Definition WellKnownLibrary (library_name : wstring) : M OS bool :=
  if empty library_name then ret false
  else
    wellknown_handler <-
      query (CallGetModuleHandle library_name)
        (sys_GetModuleHandle api library_name) ;;
    ret (negb (nullptr =? wellknown_handler)).

(** The overload taking a handle; [None] is the null [const char*]. *)
Definition GetFunctionPointerFromNativeLibrary (library : HMODULE)
    (name : option string) : M OS FARPROC :=
  match name with
  | None => ret nullptr
  | Some n => query (CallGetProcAddress library n)
                (sys_GetProcAddress api library n)
  end.

(** The overload taking a library name. *)
Definition GetFunctionPointerFromNativeLibrary_by_name
    (library_name : wstring) (name : option string) : M OS FARPROC :=
  match name with
  | None => ret nullptr
  | Some _ =>
      wellknown_handler <-
        query (CallGetModuleHandle library_name)
          (sys_GetModuleHandle api library_name) ;;
      if nullptr =? wellknown_handler then ret nullptr
      else GetFunctionPointerFromNativeLibrary wellknown_handler name
  end.

End Loader.

End internal.

Import internal.

(** ** namespace utils: the DynamicLibrary handle *)

Module utils.

(** The two data members of [class DynamicLibrary]. *)
Record DynamicLibrary : Type := mkDynamicLibrary {
  library_name_ : wstring;
  library_ : HMODULE
}.

(** [std::string::empty()]. *)
Definition string_empty (s : string) : bool :=
  match s with EmptyString => true | String _ _ => false end.

(** The [std::string] built from [s.c_str()], as when a [const char*] is
    handed to a parameter of type [const std::string&]: the text of [s] up
    to its first null character. *)
Fixpoint c_str (s : string) : string :=
  match s with
  | EmptyString => EmptyString
  | String c s' =>
      if Ascii.eqb c Ascii.zero then EmptyString else String c (c_str s')
  end.

Section Handle.

Context {OS : Type} (api : Api OS).

Local Open Scope os_scope.

(** [DynamicLibrary()]. *)
Definition DynamicLibrary_default : DynamicLibrary :=
  mkDynamicLibrary [] nullptr.

(** [DynamicLibrary(const HMODULE& library)]. *)
Definition DynamicLibrary_of_handle (library : HMODULE) : DynamicLibrary :=
  mkDynamicLibrary [] library.

(** [DynamicLibrary(const std::wstring& path)]. *)
Definition DynamicLibrary_of_path (path : wstring) : M OS DynamicLibrary :=
  library <- LoadLibrary api path None ;;
  ret (mkDynamicLibrary [] library).

(** [DynamicLibrary(LPCTSTR filename)]. *)
Definition DynamicLibrary_of_name (filename : wstring) : DynamicLibrary :=
  mkDynamicLibrary filename nullptr.

(** [~DynamicLibrary()]. *)
Definition DynamicLibrary_destroy (this : DynamicLibrary) : M OS unit :=
  UnloadNativeLibrary api (library_ this).

Definition is_valid (this : DynamicLibrary) : M OS bool :=
  if negb (library_ this =? nullptr) then ret true
  else WellKnownLibrary api (library_name_ this).

(** [void* GetFunctionPointer(const char* function_name) const]. *)
Definition GetFunctionPointer (this : DynamicLibrary)
    (function_name : option string) : M OS FARPROC :=
  valid <- is_valid this ;;
  if negb valid then ret nullptr
  else if empty (library_name_ this)
  then GetFunctionPointerFromNativeLibrary api (library_ this) function_name
  else GetFunctionPointerFromNativeLibrary_by_name api (library_name_ this)
         function_name.

(** The member template [GetFunctionPointer<R, P...>(const std::string&)];
    the cast to the function type leaves the address as it is. *)
Definition GetFunctionPointer_typed (this : DynamicLibrary)
    (InterfaceName : string) : M OS FARPROC :=
  valid <- is_valid this ;;
  if negb valid && string_empty InterfaceName then ret nullptr
  else GetFunctionPointer this (Some InterfaceName).

Definition Reset (this : DynamicLibrary) (library : HMODULE)
    : M OS DynamicLibrary :=
  UnloadNativeLibrary api (library_ this) ;;;
  ret (mkDynamicLibrary (library_name_ this) library).

(** [Release()]: the returned handle and the object afterwards. *)
Definition Release (this : DynamicLibrary) : HMODULE * DynamicLibrary :=
  let result := library_ this in
  (result, mkDynamicLibrary (library_name_ this) nullptr).

(** The free template taking [const HMODULE&]. *)
Definition GetFunctionPointer_of_handle (library : HMODULE)
    (InterfaceName : string) : M OS FARPROC :=
  if (library =? nullptr) || string_empty InterfaceName then ret nullptr
  else GetFunctionPointerFromNativeLibrary api library (Some InterfaceName).

(** The free template taking [const DynamicLibrary*]; [None] is the null
    pointer.  The member template is called with [InterfaceName.c_str()],
    from which its [const std::string&] parameter is built anew. *)
Definition GetFunctionPointer_of_pointer (library : option DynamicLibrary)
    (InterfaceName : string) : M OS FARPROC :=
  match library with
  | None => ret nullptr
  | Some this => GetFunctionPointer_typed this (c_str InterfaceName)
  end.

(** The free template taking [const std::weak_ptr<DynamicLibrary>&]; the
    argument is what [lock()] yields, [None] once the instance is gone.  The
    member template is called with [InterfaceName.c_str()] here too. *)
Definition GetFunctionPointer_of_weak_ptr (library : option DynamicLibrary)
    (InterfaceName : string) : M OS FARPROC :=
  let known_library := library in
  match known_library with
  | None => ret nullptr
  | Some this => GetFunctionPointer_typed this (c_str InterfaceName)
  end.

End Handle.

End utils.

Import utils.


Import internal.

(** ** Vocabulary of the statements *)

(** The loop bound [start] of [StripTrailingSeparators]: one past the place
    of a root separator. *)
Definition strip_start (path : wstring) : Z := wrap (FindDriveLetter path + 2).

(** The test of [FindDriveLetter] on the first unit. *)
Definition is_drive_letter (c : wchar_t) : bool :=
  ((c >=? 65) && (c <=? 90)) || ((c >=? 97) && (c <=? 122)).

(** No unit of the text is a separator. *)
Definition plain (name : wstring) : bool :=
  forallb (fun c => negb (IsSeparator c)) name.

(** Paths under an alternate root: behind the drive letter, if any, exactly
    two separators, followed by nothing or by a unit that is no separator. *)
Definition alternate_root (path : wstring) : bool :=
  let start := strip_start path in
  IsSeparator (at_ path (start - 1)) && IsSeparator (at_ path start) &&
  ((wlength path =? start + 1) ||
   ((start + 1 <? wlength path) &&
    negb (IsSeparator (at_ path (start + 1))))).

(** The middle step of [GetParent], on the stripped path: the choice of the
    place to cut at, by the last separator and the drive letter. *)
Definition parent_cut (path : wstring) : wstring :=
  let letter := FindDriveLetter path in
  let last_separator :=
    find_last_of path kSeparators (kSeparatorsLength - 1) in
  if last_separator =? npos then resize path (wrap (letter + 1))
  else if last_separator =? wrap (letter + 1)
  then resize path (wrap (letter + 2))
  else if (last_separator =? wrap (letter + 2)) &&
          IsSeparator (at_ path (wrap (letter + 1)))
  then resize path (wrap (letter + 3))
  else if negb (last_separator =? 0) then resize path last_separator
  else path.

(** Root paths: a drive alone, one or two separators, or a drive followed by
    one or two separators. *)
Definition is_root (path : wstring) : bool :=
  match path with
  | [s] => IsSeparator s
  | [a; b] =>
      (IsSeparator a && IsSeparator b) || (is_drive_letter a && (b =? 58))
  | [l; c; s] => is_drive_letter l && (c =? 58) && IsSeparator s
  | [l; c; s1; s2] =>
      is_drive_letter l && (c =? 58) && IsSeparator s1 && IsSeparator s2
  | _ => false
  end.

(** The OS state once [GetCurrentDirectory] has been asked in [w]. *)
Definition os_after_get {OS : Type} (api : Api OS) (w : World OS) : OS :=
  snd (sys_GetCurrentDirectory api MAX_PATH (os_state w)).

(** [GetCurrentDirectory] reports success in [w]. *)
Definition captures {OS : Type} (api : Api OS) (w : World OS) : bool :=
  fst (result (GetCurrentDirectory api []) w).

(** The directory [GetCurrentDirectory] hands back in [w]. *)
Definition captured_directory {OS : Type} (api : Api OS) (w : World OS)
    : wstring :=
  snd (result (GetCurrentDirectory api []) w).

(** The OS reports a module of that name as mapped into the process. *)
Definition resident {OS : Type} (api : Api OS) (name : wstring) (s : OS)
    : bool :=
  negb (nullptr =? sys_GetModuleHandle api name s).

(** What the OS resolver answers for a symbol of a module. *)
Definition resolve {OS : Type} (api : Api OS) (library : HMODULE)
    (name : string) (s : OS) : FARPROC :=
  sys_GetProcAddress api library name s.

(** The text holds no null character. *)
Fixpoint no_null (s : string) : bool :=
  match s with
  | EmptyString => true
  | String c s' => negb (Ascii.eqb c Ascii.zero) && no_null s'
  end.

(** An instance that holds no name: built by default, from a handle or from
    a path. *)
Definition owned_mode (this : DynamicLibrary) : bool :=
  empty (library_name_ this).

(** ** A mock operating system *)

Module Mock.

(** The machine: the current directory (unreadable when empty), the files
    that load, the modules that are resident and the symbols they export. *)
Record Machine : Type := mkMachine {
  cwd : wstring;
  files : list (wstring * HMODULE);
  resident : list (wstring * HMODULE);
  exports : list (HMODULE * string * FARPROC)
}.

Fixpoint wstring_eqb (a b : wstring) : bool :=
  match a, b with
  | [], [] => true
  | x :: a', y :: b' => (x =? y) && wstring_eqb a' b'
  | _, _ => false
  end.

Fixpoint lookup_module (name : wstring) (table : list (wstring * HMODULE))
    : HMODULE :=
  match table with
  | [] => nullptr
  | (n, h) :: table' =>
      if wstring_eqb n name then h else lookup_module name table'
  end.

Fixpoint lookup_symbol (library : HMODULE) (name : string)
    (table : list (HMODULE * string * FARPROC)) : FARPROC :=
  match table with
  | [] => nullptr
  | (h, n, address) :: table' =>
      if (h =? library) && String.eqb n name then address
      else lookup_symbol library name table'
  end.

Definition api : Api Machine := {|
  sys_GetCurrentDirectory := fun _ m => ((wlength (cwd m), cwd m), m);
  sys_SetCurrentDirectory := fun directory m =>
    (1, mkMachine directory (files m) (resident m) (exports m));
  sys_LoadLibraryW := fun file_name m => (lookup_module file_name (files m), m);
  sys_FreeLibrary := fun _ m => (1, m);
  sys_GetModuleHandle := fun name m => lookup_module name (resident m);
  sys_GetProcAddress := fun library name m =>
    lookup_symbol library name (exports m)
|}.

(** A process started in [directory], with nothing logged yet. *)
Definition boot (directory : wstring) (files : list (wstring * HMODULE))
    (resident : list (wstring * HMODULE))
    (exports : list (HMODULE * string * FARPROC)) : World Machine :=
  mkWorld (mkMachine directory files resident exports) [].

End Mock.

(** ** Mock processes *)

(** A process in "D:\work" where no file loads. *)
Definition bare_world : World Mock.Machine :=
  Mock.boot (L "D:\work\") [] [] [].

(** A process whose current directory cannot be read, where "foo.dll"
    loads. *)
Definition blind_world : World Mock.Machine :=
  Mock.boot [] [(L "foo.dll", 4096)] [] [].

(** A process with the module 4096 exporting "f" and the empty name, and
    the module 8192 exporting "f"; "user32" is resident as 8192 or not. *)
Definition symbol_table : list (HMODULE * string * FARPROC) :=
  [(4096, "f"%string, 111); (4096, ""%string, 333); (8192, "f"%string, 222)].

Definition world_with_user32 : World Mock.Machine :=
  Mock.boot (L "D:\work") [] [(L "user32", 8192)] symbol_table.

Definition world_without_user32 : World Mock.Machine :=
  Mock.boot (L "D:\work") [] [] symbol_table.

(** * Properties *)

(** ** Code units and sizes *)

Lemma IsSeparator_spec (c : wchar_t) :
  IsSeparator c = (c =? 92) || (c =? 47).
Proof.
  unfold IsSeparator.
  change (Z.to_nat (kSeparatorsLength - 1)) with 2%nat.
  cbn [IsSeparator_from].
  change (at_ kSeparators 0) with 92.
  change (at_ kSeparators (0 + 1)) with 47.
  destruct (c =? 92); [reflexivity|].
  destruct (c =? 47); reflexivity.
Qed.

Lemma among_kSeparators (c : wchar_t) :
  among c kSeparators (kSeparatorsLength - 1) = IsSeparator c.
Proof.
  rewrite IsSeparator_spec. unfold among.
  change (Z.to_nat (kSeparatorsLength - 1)) with 2%nat. cbn.
  rewrite orb_false_r. reflexivity.
Qed.

Lemma FindDriveLetter_cases (path : wstring) :
  FindDriveLetter path = 1 \/ FindDriveLetter path = npos.
Proof.
  unfold FindDriveLetter.
  match goal with |- context [if ?b then _ else _] => destruct b end; auto.
Qed.

Lemma strip_start_cases (path : wstring) :
  strip_start path = 3 \/ strip_start path = 1.
Proof.
  unfold strip_start.
  destruct (FindDriveLetter_cases path) as [H | H]; rewrite H;
    [left | right]; reflexivity.
Qed.

Lemma wrap_small (z : Z) : 0 <= z < 16 -> wrap z = z.
Proof.
  intros H. unfold wrap, size_modulus, size_bits.
  apply Z.mod_small. change (2 ^ 64) with 18446744073709551616. lia.
Qed.

(** ** resize, indexing and the last unit *)

Lemma resize_cut (path : wstring) (n : Z) :
  0 <= n <= wlength path -> resize path n = firstn (Z.to_nat n) path.
Proof.
  unfold resize, wlength. intros H.
  replace (Z.to_nat n - length path)%nat with 0%nat by lia.
  cbn. apply app_nil_r.
Qed.

Lemma resize_removelast (path : wstring) (p : nat) :
  length path = S p -> resize path (Z.of_nat (S p) - 1) = removelast path.
Proof.
  intros H. rewrite resize_cut by (unfold wlength; lia).
  replace (Z.to_nat (Z.of_nat (S p) - 1)) with p by lia.
  rewrite removelast_firstn_len. rewrite H. reflexivity.
Qed.

Lemma at_last (path : wstring) (p : nat) :
  length path = S p -> at_ path (Z.of_nat (S p) - 1) = last path 0.
Proof.
  intros H. unfold at_.
  replace (Z.to_nat (Z.of_nat (S p) - 1)) with (length path - 1)%nat by lia.
  revert p H. induction path as [| c path IH]; intros p H; [discriminate|].
  destruct path as [| c' path]; [reflexivity|].
  cbn [length] in *. replace (S (S (length path)) - 1)%nat
    with (S (length path)) by lia.
  cbn [nth last]. specialize (IH (length path) eq_refl).
  replace (S (length path) - 1)%nat with (length path) in IH by lia.
  exact IH.
Qed.

Lemma length_removelast_S (path : wstring) (p : nat) :
  length path = S p -> length (removelast path) = p.
Proof.
  intros H. assert (Hne : path <> [])
    by (intro E; rewrite E in H; discriminate).
  pose proof (app_removelast_last 0 Hne) as E.
  apply (f_equal (@length Z)) in E.
  rewrite length_app in E. cbn [length] in E. lia.
Qed.

(** ** The loop of StripTrailingSeparators *)

(** Turn the boolean tests of the code into arithmetic facts. *)
Ltac zbool :=
  repeat match goal with
  | H : (_ >? _) = true |- _ => apply Z.gtb_lt in H
  | H : (_ >? _) = false |- _ => rewrite Z.gtb_ltb in H; apply Z.ltb_ge in H
  | H : (_ =? _) = true |- _ => apply Z.eqb_eq in H
  | H : (_ =? _) = false |- _ => apply Z.eqb_neq in H
  | H : (_ <=? _) = true |- _ => apply Z.leb_le in H
  | H : (_ <=? _) = false |- _ => apply Z.leb_gt in H
  | H : (_ >=? _) = true |- _ => rewrite Z.geb_leb in H; apply Z.leb_le in H
  | H : (_ >=? _) = false |- _ => rewrite Z.geb_leb in H; apply Z.leb_gt in H
  end.

Lemma strip_loop_stop (start : Z) (pos : nat) (path : wstring) (ls : Z) :
  Z.of_nat pos <= start -> strip_loop start pos path ls = path.
Proof.
  intros H. destruct pos as [| p]; [reflexivity|].
  cbn [strip_loop].
  destruct (Z.gtb_spec (Z.of_nat (S p)) start); [lia | reflexivity].
Qed.

(** One round of the loop when [pos] is the length of [path]: the round
    either leaves the loop, keeps a double separator at the root, or drops
    the last unit and goes on. *)
Lemma strip_loop_round (start : Z) (p : nat) (path : wstring) (ls : Z) :
  length path = S p -> start = 3 \/ start = 1 ->
  strip_loop start (S p) path ls =
    if (Z.of_nat (S p) >? start) && IsSeparator (last path 0) then
      if (Z.of_nat (S p) =? start + 1) && negb (ls =? start + 2) &&
         IsSeparator (at_ path (start - 1))
      then path
      else strip_loop start p (removelast path) (Z.of_nat (S p))
    else path.
Proof.
  intros Hlen Hstart. cbn [strip_loop].
  rewrite (at_last path p Hlen), (resize_removelast path p Hlen).
  rewrite !wrap_small by lia.
  destruct ((Z.of_nat (S p) >? start) && IsSeparator (last path 0));
    [|reflexivity].
  destruct (Z.of_nat (S p) =? start + 1) eqn:Hpos;
    destruct (ls =? start + 2); destruct (IsSeparator (at_ path (start - 1)));
    cbn [negb orb andb]; try reflexivity.
  apply Z.eqb_eq in Hpos. apply strip_loop_stop. lia.
Qed.

Lemma removelast_last_app (path : wstring) (p : nat) :
  length path = S p -> path = removelast path ++ [last path 0].
Proof.
  intros H. apply app_removelast_last. intro E. rewrite E in H. discriminate.
Qed.

(** The loop only ever removes separators from the end. *)
Lemma strip_loop_suffix (start : Z) (Hstart : start = 3 \/ start = 1) :
  forall (pos : nat) (path : wstring) (ls : Z),
    length path = pos ->
    exists suffix,
      path = strip_loop start pos path ls ++ suffix /\
      forallb IsSeparator suffix = true.
Proof.
  induction pos as [| p IH]; intros path ls Hlen.
  - exists []. cbn. rewrite app_nil_r. auto.
  - rewrite (strip_loop_round start p path ls Hlen Hstart).
    destruct ((Z.of_nat (S p) >? start) && IsSeparator (last path 0)) eqn:Hc;
      [| exists []; rewrite app_nil_r; auto].
    destruct ((Z.of_nat (S p) =? start + 1) && negb (ls =? start + 2) &&
              IsSeparator (at_ path (start - 1)));
      [exists []; rewrite app_nil_r; auto |].
    apply andb_true_iff in Hc. destruct Hc as [_ Hsep].
    destruct (IH (removelast path) (Z.of_nat (S p))
                 (length_removelast_S path p Hlen)) as [suffix [E Hall]].
    exists (suffix ++ [last path 0]). split.
    + rewrite app_assoc, <- E. apply (removelast_last_app path p Hlen).
    + rewrite forallb_app, Hall. cbn [forallb]. rewrite Hsep. reflexivity.
Qed.

(** The loop never cuts below [start]. *)
Lemma strip_loop_floor (start : Z) (Hstart : start = 3 \/ start = 1) :
  forall (pos : nat) (path : wstring) (ls : Z),
    length path = pos ->
    Z.min (Z.of_nat pos) start <= wlength (strip_loop start pos path ls).
Proof.
  induction pos as [| p IH]; intros path ls Hlen.
  - cbn [strip_loop]. unfold wlength. lia.
  - rewrite (strip_loop_round start p path ls Hlen Hstart).
    destruct ((Z.of_nat (S p) >? start) && IsSeparator (last path 0)) eqn:Hc;
      [| unfold wlength; lia].
    destruct ((Z.of_nat (S p) =? start + 1) && negb (ls =? start + 2) &&
              IsSeparator (at_ path (start - 1)));
      [unfold wlength; lia |].
    apply andb_true_iff in Hc. destruct Hc as [Hgt _].
    specialize (IH (removelast path) (Z.of_nat (S p))
                   (length_removelast_S path p Hlen)).
    zbool. lia.
Qed.

(** What is left when the loop ends: nothing above [start], or a last unit
    that is no separator, or the untouched double separator at the root. *)
Lemma strip_loop_done (start : Z) (Hstart : start = 3 \/ start = 1) :
  forall (pos : nat) (path : wstring) (ls : Z),
    length path = pos ->
    let r := strip_loop start pos path ls in
    wlength r <= start \/
    IsSeparator (last r 0) = false \/
    (r = path /\ wlength path = start + 1 /\ ls <> start + 2 /\
     IsSeparator (at_ path (start - 1)) = true /\
     IsSeparator (at_ path start) = true).
Proof.
  induction pos as [| p IH]; intros path ls Hlen; cbv zeta.
  - left. cbn [strip_loop]. unfold wlength. lia.
  - rewrite (strip_loop_round start p path ls Hlen Hstart).
    destruct (Z.of_nat (S p) >? start) eqn:Hgt; cbn [andb];
      [| left; unfold wlength; zbool; lia].
    destruct (IsSeparator (last path 0)) eqn:Hsep; [| right; left; exact Hsep].
    destruct (Z.of_nat (S p) =? start + 1) eqn:Hpos; cbn [andb].
    + destruct (ls =? start + 2) eqn:Hls; cbn [negb andb].
      * specialize (IH (removelast path) (Z.of_nat (S p))
                       (length_removelast_S path p Hlen)).
        cbv zeta in IH. destruct IH as [IH | [IH | IH]]; auto.
        destruct IH as (_ & Hl & _).
        unfold wlength in Hl.
        rewrite (length_removelast_S path p Hlen) in Hl. zbool. lia.
      * destruct (IsSeparator (at_ path (start - 1))) eqn:Hroot.
        -- right; right. zbool. repeat split; auto.
           ++ unfold wlength. lia.
           ++ replace start with (Z.of_nat (S p) - 1) by lia.
              rewrite (at_last path p Hlen). exact Hsep.
        -- specialize (IH (removelast path) (Z.of_nat (S p))
                          (length_removelast_S path p Hlen)).
           cbv zeta in IH. destruct IH as [IH | [IH | IH]]; auto.
           destruct IH as (_ & Hl & _).
           unfold wlength in Hl.
           rewrite (length_removelast_S path p Hlen) in Hl. zbool. lia.
    + specialize (IH (removelast path) (Z.of_nat (S p))
                     (length_removelast_S path p Hlen)).
      cbv zeta in IH. destruct IH as [IH | [IH | IH]]; auto.
      destruct IH as (_ & Hl & Hne & _).
      unfold wlength in Hl.
      rewrite (length_removelast_S path p Hlen) in Hl. zbool. lia.
Qed.

(** ** StripTrailingSeparators *)

Lemma StripTrailingSeparators_unfold (path : wstring) :
  StripTrailingSeparators path =
  strip_loop (strip_start path) (length path) path npos.
Proof. reflexivity. Qed.

Lemma npos_not_start (start : Z) :
  start = 3 \/ start = 1 -> (npos =? start + 2) = false.
Proof. intros [-> | ->]; reflexivity. Qed.

(** A path that is empty or ends in a unit that is no separator is left
    alone. *)
Lemma strip_keeps_plain (path : wstring) :
  IsSeparator (last path 0) = false -> StripTrailingSeparators path = path.
Proof.
  intros H. rewrite StripTrailingSeparators_unfold.
  destruct (length path) as [| p] eqn:Hlen; [reflexivity|].
  rewrite (strip_loop_round _ p path npos Hlen (strip_start_cases path)).
  rewrite H, andb_false_r. reflexivity.
Qed.

(** A path that does not reach beyond [start] is left alone. *)
Lemma strip_keeps_short (path : wstring) :
  wlength path <= strip_start path -> StripTrailingSeparators path = path.
Proof.
  intros H. rewrite StripTrailingSeparators_unfold.
  apply strip_loop_stop. exact H.
Qed.

(** Two separators right at the root, and nothing after them, are kept. *)
Lemma strip_keeps_double_root (path : wstring) :
  wlength path = strip_start path + 1 ->
  IsSeparator (at_ path (strip_start path - 1)) = true ->
  IsSeparator (at_ path (strip_start path)) = true ->
  StripTrailingSeparators path = path.
Proof.
  intros Hlen H1 H2. rewrite StripTrailingSeparators_unfold.
  pose proof (strip_start_cases path) as Hs.
  destruct (length path) as [| p] eqn:Hp;
    [unfold wlength in Hlen; rewrite Hp in Hlen; lia |].
  unfold wlength in Hlen. rewrite Hp in Hlen.
  rewrite (strip_loop_round _ p path npos Hp Hs).
  rewrite <- (at_last path p Hp).
  replace (Z.of_nat (S p) - 1) with (strip_start path) by lia.
  rewrite H1, H2, (npos_not_start _ Hs).
  replace (Z.of_nat (S p) >? strip_start path) with true
    by (symmetry; apply Z.gtb_lt; lia).
  replace (Z.of_nat (S p) =? strip_start path + 1) with true
    by (symmetry; apply Z.eqb_eq; lia).
  reflexivity.
Qed.

Lemma strip_suffix (path : wstring) :
  exists suffix,
    path = StripTrailingSeparators path ++ suffix /\
    forallb IsSeparator suffix = true.
Proof.
  rewrite StripTrailingSeparators_unfold.
  apply strip_loop_suffix; [apply strip_start_cases | reflexivity].
Qed.

Lemma strip_floor (path : wstring) :
  Z.min (wlength path) (strip_start path)
    <= wlength (StripTrailingSeparators path).
Proof.
  rewrite StripTrailingSeparators_unfold.
  apply strip_loop_floor; [apply strip_start_cases | reflexivity].
Qed.

Lemma strip_done (path : wstring) :
  let r := StripTrailingSeparators path in
  wlength r <= strip_start path \/
  IsSeparator (last r 0) = false \/
  (r = path /\ wlength path = strip_start path + 1 /\
   IsSeparator (at_ path (strip_start path - 1)) = true /\
   IsSeparator (at_ path (strip_start path)) = true).
Proof.
  cbv zeta. rewrite StripTrailingSeparators_unfold.
  destruct (strip_loop_done _ (strip_start_cases path) (length path) path
              npos eq_refl) as [H | [H | (H1 & H2 & _ & H3 & H4)]]; auto.
  right; right. auto.
Qed.

(** The units below [start] are all kept. *)
Lemma strip_keeps_below_start (path : wstring) :
  firstn (Z.to_nat (strip_start path)) (StripTrailingSeparators path) =
  firstn (Z.to_nat (strip_start path)) path.
Proof.
  destruct (strip_suffix path) as [suffix [E Hall]].
  pose proof (strip_floor path) as Hfloor.
  set (r := StripTrailingSeparators path) in *.
  set (n := Z.to_nat (strip_start path)) in *.
  transitivity (firstn n (r ++ suffix)); [| f_equal; symmetry; exact E].
  rewrite firstn_app.
  destruct (Nat.le_gt_cases n (length r)) as [Hle | Hgt].
  - replace (n - length r)%nat with 0%nat by lia.
    cbn [firstn]. rewrite app_nil_r. reflexivity.
  - assert (Hlen : length path = (length r + length suffix)%nat).
    { rewrite E at 1. apply length_app. }
    unfold wlength in Hfloor.
    assert (Hs : suffix = []).
    { destruct suffix; [reflexivity |]. cbn [length] in Hlen. lia. }
    rewrite Hs. rewrite firstn_nil, app_nil_r. reflexivity.
Qed.

(** Two separators at the root that are followed by a unit that is no
    separator stay in front of the result. *)
Lemma strip_keeps_double_prefix (path : wstring) :
  strip_start path + 1 < wlength path ->
  IsSeparator (at_ path (strip_start path + 1)) = false ->
  firstn (Z.to_nat (strip_start path + 1)) (StripTrailingSeparators path) =
  firstn (Z.to_nat (strip_start path + 1)) path.
Proof.
  intros Hlen Hns.
  destruct (strip_suffix path) as [suffix [E Hall]].
  pose proof (strip_start_cases path) as Hs.
  set (r := StripTrailingSeparators path) in *.
  set (n := Z.to_nat (strip_start path + 1)) in *.
  assert (Hn : (n < length path)%nat) by (unfold wlength in Hlen; lia).
  assert (Hr : (n < length r)%nat).
  { destruct (Nat.lt_ge_cases n (length r)) as [Hlt | Hge]; [exact Hlt|].
    exfalso. unfold at_ in Hns. fold n in Hns.
    rewrite E in Hns. rewrite app_nth2 in Hns by exact Hge.
    rewrite forallb_forall in Hall.
    rewrite Hall in Hns; [discriminate|].
    apply nth_In. rewrite E, length_app in Hn. lia. }
  transitivity (firstn n (r ++ suffix)); [| f_equal; symmetry; exact E].
  rewrite firstn_app.
  replace (n - length r)%nat with 0%nat by lia.
  cbn [firstn]. rewrite app_nil_r. reflexivity.
Qed.

(** ** Drive letters and the last separator *)

Lemma FindDriveLetter_drive (l : wchar_t) (rest : wstring) :
  is_drive_letter l = true -> FindDriveLetter (l :: 58 :: rest) = 1.
Proof.
  intros H. unfold FindDriveLetter, wlength, at_.
  change (Z.to_nat 1) with 1%nat. change (Z.to_nat 0) with 0%nat.
  cbn [nth length]. unfold is_drive_letter in H. rewrite H.
  replace (Z.of_nat (S (S (length rest))) >=? 2) with true
    by (symmetry; rewrite Z.geb_leb; apply Z.leb_le; lia).
  reflexivity.
Qed.

Lemma FindDriveLetter_no_letter (c : wchar_t) (rest : wstring) :
  is_drive_letter c = false -> FindDriveLetter (c :: rest) = npos.
Proof.
  intros H. unfold FindDriveLetter, at_.
  change (Z.to_nat 0) with 0%nat. cbn [nth].
  unfold is_drive_letter in H. rewrite H, andb_false_r. reflexivity.
Qed.

Lemma separator_no_letter (c : wchar_t) :
  IsSeparator c = true -> is_drive_letter c = false.
Proof.
  rewrite IsSeparator_spec. unfold is_drive_letter. intros H.
  apply orb_true_iff in H. destruct H as [H | H]; zbool; subst c; reflexivity.
Qed.

Lemma letter_no_separator (c : wchar_t) :
  is_drive_letter c = true -> IsSeparator c = false.
Proof.
  intros H. destruct (IsSeparator c) eqn:E; [| reflexivity].
  rewrite (separator_no_letter c E) in H. discriminate.
Qed.

Lemma find_last_from_plain (name : wstring) :
  plain name = true ->
  forall (i acc : Z),
    find_last_from kSeparators (kSeparatorsLength - 1) i name acc = acc.
Proof.
  induction name as [| c name IH]; intros H i acc; [reflexivity|].
  cbn [plain forallb] in H. apply andb_true_iff in H. destruct H as [Hc H].
  cbn [find_last_from]. rewrite among_kSeparators.
  apply negb_true_iff in Hc. rewrite Hc. apply IH. exact H.
Qed.

Lemma last_plain (pre name : wstring) :
  name <> [] -> plain name = true ->
  IsSeparator (last (pre ++ name) 0) = false.
Proof.
  intros Hne H. pose proof (app_removelast_last 0 Hne) as E.
  remember (last name 0) as x. remember (removelast name) as body.
  clear Heqx Heqbody. subst name.
  rewrite app_assoc, last_last.
  unfold plain in H. rewrite forallb_app in H.
  apply andb_true_iff in H. destruct H as [_ H]. cbn [forallb] in H.
  rewrite andb_true_r in H. apply negb_true_iff. exact H.
Qed.

(** ** GetParent *)

Lemma GetParent_unfold (path : wstring) :
  GetParent path =
  let stripped := StripTrailingSeparators path in
  let letter := FindDriveLetter stripped in
  let last_separator :=
    find_last_from kSeparators (kSeparatorsLength - 1) 0 stripped npos in
  let cut :=
    if last_separator =? npos then resize stripped (wrap (letter + 1))
    else if last_separator =? wrap (letter + 1)
    then resize stripped (wrap (letter + 2))
    else if (last_separator =? wrap (letter + 2)) &&
            IsSeparator (at_ stripped (wrap (letter + 1)))
    then resize stripped (wrap (letter + 3))
    else if negb (last_separator =? 0) then resize stripped last_separator
    else stripped in
  let final := StripTrailingSeparators cut in
  if wlength final =? 0 then kCurrentDirectory else final.
Proof. reflexivity. Qed.

Lemma GetParent_never_empty (path : wstring) : GetParent path <> [].
Proof.
  rewrite GetParent_unfold. cbv zeta.
  match goal with |- (if wlength ?f =? 0 then _ else _) <> _ =>
    destruct f as [| c f'] eqn:E end.
  - cbn. discriminate.
  - unfold wlength. cbn [length].
    destruct (Z.of_nat (S (length f')) =? 0); discriminate.
Qed.

(** No drive letter and no separator: the path is in the current
    directory. *)
Lemma GetParent_plain (path : wstring) :
  FindDriveLetter path = npos -> plain path = true ->
  GetParent path = kCurrentDirectory.
Proof.
  intros Hletter Hplain. rewrite GetParent_unfold.
  assert (Hs : StripTrailingSeparators path = path).
  { destruct path as [| c path]; [reflexivity|].
    apply strip_keeps_plain.
    apply (last_plain [] (c :: path)); [discriminate | exact Hplain]. }
  rewrite Hs. cbv zeta.
  rewrite Hletter, (find_last_from_plain path Hplain).
  change (npos =? npos) with true. cbv iota.
  change (wrap (npos + 1)) with 0.
  reflexivity.
Qed.

(** A drive letter and no separator: only the drive is left. *)
Lemma GetParent_drive_relative (l : wchar_t) (name : wstring) :
  is_drive_letter l = true -> plain name = true ->
  GetParent (l :: 58 :: name) = [l; 58].
Proof.
  intros Hl Hplain. rewrite GetParent_unfold.
  assert (Hp : plain (l :: 58 :: name) = true).
  { cbn [plain forallb]. rewrite (letter_no_separator l Hl).
    fold (plain name). rewrite Hplain. reflexivity. }
  assert (Hs : StripTrailingSeparators (l :: 58 :: name) = l :: 58 :: name).
  { apply strip_keeps_plain.
    apply (last_plain [] (l :: 58 :: name)); [discriminate | exact Hp]. }
  rewrite Hs. cbv zeta.
  rewrite (FindDriveLetter_drive l name Hl), (find_last_from_plain _ Hp).
  change (npos =? npos) with true. cbv iota.
  change (wrap (1 + 1)) with 2.
  assert (Hr : resize (l :: 58 :: name) 2 = [l; 58]).
  { unfold resize. change (Z.to_nat 2) with 2%nat. reflexivity. }
  rewrite Hr.
  rewrite (strip_keeps_short [l; 58]).
  - reflexivity.
  - unfold strip_start. rewrite (FindDriveLetter_drive l [] Hl).
    unfold wlength. cbn. vm_compute. discriminate.
Qed.

Lemma strip_keeps_plain_tail (pre name : wstring) :
  plain name = true -> StripTrailingSeparators pre = pre ->
  StripTrailingSeparators (pre ++ name) = pre ++ name.
Proof.
  intros Hplain Hpre. destruct name as [| c name].
  - rewrite app_nil_r. exact Hpre.
  - apply strip_keeps_plain. apply last_plain; [discriminate | exact Hplain].
Qed.

Lemma strip_start_drive (l : wchar_t) (rest : wstring) :
  is_drive_letter l = true -> strip_start (l :: 58 :: rest) = 3.
Proof.
  intros H. unfold strip_start. rewrite (FindDriveLetter_drive l rest H).
  reflexivity.
Qed.

Lemma strip_start_no_letter (c : wchar_t) (rest : wstring) :
  is_drive_letter c = false -> strip_start (c :: rest) = 1.
Proof.
  intros H. unfold strip_start. rewrite (FindDriveLetter_no_letter c rest H).
  reflexivity.
Qed.

(** The four shapes of a root, each left alone by the strip. *)
Lemma strip_root (s : wchar_t) :
  IsSeparator s = true -> StripTrailingSeparators [s] = [s].
Proof.
  intros Hs. apply strip_keeps_short.
  rewrite (strip_start_no_letter s [] (separator_no_letter s Hs)).
  unfold wlength. cbn. lia.
Qed.

Lemma strip_double_root (s1 s2 : wchar_t) :
  IsSeparator s1 = true -> IsSeparator s2 = true ->
  StripTrailingSeparators [s1; s2] = [s1; s2].
Proof.
  intros H1 H2.
  pose proof (strip_start_no_letter s1 [s2] (separator_no_letter s1 H1)) as E.
  apply strip_keeps_double_root; rewrite E.
  - reflexivity.
  - exact H1.
  - exact H2.
Qed.

Lemma strip_drive_root (l s : wchar_t) :
  is_drive_letter l = true -> StripTrailingSeparators [l; 58; s] = [l; 58; s].
Proof.
  intros Hl. apply strip_keeps_short. rewrite (strip_start_drive l [s] Hl).
  unfold wlength. cbn. lia.
Qed.

Lemma strip_drive_double_root (l s1 s2 : wchar_t) :
  is_drive_letter l = true ->
  IsSeparator s1 = true -> IsSeparator s2 = true ->
  StripTrailingSeparators [l; 58; s1; s2] = [l; 58; s1; s2].
Proof.
  intros Hl H1 H2. pose proof (strip_start_drive l [s1; s2] Hl) as E.
  apply strip_keeps_double_root; rewrite E.
  - reflexivity.
  - exact H1.
  - exact H2.
Qed.

(** One separator at the root: the parent is the root. *)
Lemma GetParent_root_child (s : wchar_t) (name : wstring) :
  IsSeparator s = true -> plain name = true -> GetParent (s :: name) = [s].
Proof.
  intros Hs Hplain. rewrite GetParent_unfold.
  pose proof (strip_keeps_plain_tail [s] name Hplain
                (strip_root s Hs)) as Hstrip.
  cbn [app] in Hstrip. rewrite Hstrip. cbv zeta.
  rewrite (FindDriveLetter_no_letter s name (separator_no_letter s Hs)).
  cbn [find_last_from]. rewrite among_kSeparators, Hs.
  rewrite (find_last_from_plain name Hplain).
  change (0 =? npos) with false. change (wrap (npos + 1)) with 0.
  change (0 =? 0) with true. cbv iota.
  change (wrap (npos + 2)) with 1.
  assert (Hr : resize (s :: name) 1 = [s]).
  { unfold resize. change (Z.to_nat 1) with 1%nat. reflexivity. }
  rewrite Hr, (strip_root s Hs). reflexivity.
Qed.

Lemma GetParent_drive_root_child (l s : wchar_t) (name : wstring) :
  is_drive_letter l = true -> IsSeparator s = true -> plain name = true ->
  GetParent (l :: 58 :: s :: name) = [l; 58; s].
Proof.
  intros Hl Hs Hplain. rewrite GetParent_unfold.
  pose proof (strip_keeps_plain_tail [l; 58; s] name Hplain
                (strip_drive_root l s Hl)) as Hstrip.
  cbn [app] in Hstrip. rewrite Hstrip. cbv zeta.
  rewrite (FindDriveLetter_drive l (s :: name) Hl).
  cbn [find_last_from]. rewrite !among_kSeparators.
  rewrite (letter_no_separator l Hl), Hs.
  change (IsSeparator 58) with false. cbv iota.
  rewrite (find_last_from_plain name Hplain).
  change (0 + 1 + 1) with 2.
  change (2 =? npos) with false. change (wrap (1 + 1)) with 2.
  change (2 =? 2) with true. cbv iota.
  change (wrap (1 + 2)) with 3.
  assert (Hr : resize (l :: 58 :: s :: name) 3 = [l; 58; s]).
  { unfold resize. change (Z.to_nat 3) with 3%nat. reflexivity. }
  rewrite Hr, (strip_drive_root l s Hl). reflexivity.
Qed.

(** Two separators at the root: the parent is the alternate root. *)
Lemma GetParent_double_root_child (s1 s2 : wchar_t) (name : wstring) :
  IsSeparator s1 = true -> IsSeparator s2 = true -> plain name = true ->
  GetParent (s1 :: s2 :: name) = [s1; s2].
Proof.
  intros H1 H2 Hplain. rewrite GetParent_unfold.
  pose proof (strip_keeps_plain_tail [s1; s2] name Hplain
                (strip_double_root s1 s2 H1 H2)) as Hstrip.
  cbn [app] in Hstrip. rewrite Hstrip. cbv zeta.
  rewrite (FindDriveLetter_no_letter s1 (s2 :: name)
             (separator_no_letter s1 H1)).
  cbn [find_last_from]. rewrite !among_kSeparators, H1, H2.
  rewrite (find_last_from_plain name Hplain).
  change (0 + 1) with 1.
  change (1 =? npos) with false. change (wrap (npos + 1)) with 0.
  change (1 =? 0) with false. change (wrap (npos + 2)) with 1.
  change (1 =? 1) with true. cbv iota.
  change (at_ (s1 :: s2 :: name) 0) with s1. rewrite H1.
  cbn [andb]. change (wrap (npos + 3)) with 2.
  assert (Hr : resize (s1 :: s2 :: name) 2 = [s1; s2]).
  { unfold resize. change (Z.to_nat 2) with 2%nat. reflexivity. }
  rewrite Hr, (strip_double_root s1 s2 H1 H2). reflexivity.
Qed.

Lemma GetParent_drive_double_root_child (l s1 s2 : wchar_t) (name : wstring) :
  is_drive_letter l = true ->
  IsSeparator s1 = true -> IsSeparator s2 = true -> plain name = true ->
  GetParent (l :: 58 :: s1 :: s2 :: name) = [l; 58; s1; s2].
Proof.
  intros Hl H1 H2 Hplain. rewrite GetParent_unfold.
  pose proof (strip_keeps_plain_tail [l; 58; s1; s2] name Hplain
                (strip_drive_double_root l s1 s2 Hl H1 H2)) as Hstrip.
  cbn [app] in Hstrip. rewrite Hstrip. cbv zeta.
  rewrite (FindDriveLetter_drive l (s1 :: s2 :: name) Hl).
  cbn [find_last_from]. rewrite !among_kSeparators.
  rewrite (letter_no_separator l Hl), H1, H2.
  change (IsSeparator 58) with false. cbv iota.
  rewrite (find_last_from_plain name Hplain).
  change (0 + 1 + 1 + 1) with 3.
  change (3 =? npos) with false. change (wrap (1 + 1)) with 2.
  change (3 =? 2) with false. change (wrap (1 + 2)) with 3.
  change (3 =? 3) with true. cbv iota.
  change (at_ (l :: 58 :: s1 :: s2 :: name) 2) with s1. rewrite H1.
  cbn [andb]. change (wrap (1 + 3)) with 4.
  assert (Hr : resize (l :: 58 :: s1 :: s2 :: name) 4 = [l; 58; s1; s2]).
  { unfold resize. change (Z.to_nat 4) with 4%nat. reflexivity. }
  rewrite Hr, (strip_drive_double_root l s1 s2 Hl H1 H2). reflexivity.
Qed.

(** *** Prefixes *)

Lemma at_app (p s : wstring) (i : Z) :
  0 <= i < wlength p -> at_ (p ++ s) i = at_ p i.
Proof.
  intros H. unfold at_, wlength in *. apply app_nth1. lia.
Qed.

Lemma at_cons (c : wchar_t) (s : wstring) (k : Z) :
  1 <= k -> at_ (c :: s) k = at_ s (k - 1).
Proof.
  intros H. unfold at_.
  replace (Z.to_nat k) with (S (Z.to_nat (k - 1))) by lia. reflexivity.
Qed.

Lemma firstn_prefix (p s : wstring) (n : nat) :
  (n <= length p)%nat -> firstn n (p ++ s) = firstn n p.
Proof.
  intros H. rewrite firstn_app.
  replace (n - length p)%nat with 0%nat by lia.
  cbn [firstn]. apply app_nil_r.
Qed.

Lemma FindDriveLetter_app (p s : wstring) :
  2 <= wlength p -> FindDriveLetter (p ++ s) = FindDriveLetter p.
Proof.
  intros H. unfold FindDriveLetter.
  rewrite !at_app by lia.
  replace (wlength (p ++ s) >=? 2) with true.
  - replace (wlength p >=? 2) with true; [reflexivity |].
    symmetry. rewrite Z.geb_leb. apply Z.leb_le. exact H.
  - symmetry. rewrite Z.geb_leb. apply Z.leb_le.
    unfold wlength in *. rewrite length_app. lia.
Qed.

Lemma strip_start_app (p s : wstring) :
  2 <= wlength p -> strip_start (p ++ s) = strip_start p.
Proof.
  intros H. unfold strip_start. rewrite (FindDriveLetter_app p s H).
  reflexivity.
Qed.

Lemma plain_at (s : wstring) :
  plain s = true -> forall k : Z, IsSeparator (at_ s k) = false.
Proof.
  intros H k. unfold at_.
  destruct (Nat.lt_ge_cases (Z.to_nat k) (length s)) as [Hlt | Hge].
  - unfold plain in H. rewrite forallb_forall in H.
    apply negb_true_iff. apply H. apply nth_In. exact Hlt.
  - rewrite nth_overflow by exact Hge. reflexivity.
Qed.

(** What the scan of [find_last_of] returns: the accumulator when there is
    no separator, and the place of the last separator otherwise. *)
Lemma find_last_from_spec (s : wstring) :
  forall (i acc : Z),
    let r := find_last_from kSeparators (kSeparatorsLength - 1) i s acc in
    (plain s = true /\ r = acc) \/
    (i <= r < i + wlength s /\
     IsSeparator (at_ s (r - i)) = true /\
     forall j : Z, r < j < i + wlength s ->
                   IsSeparator (at_ s (j - i)) = false).
Proof.
  induction s as [| c s IH]; intros i acc; cbv zeta.
  - left. split; reflexivity.
  - cbn [find_last_from]. rewrite among_kSeparators.
    specialize (IH (i + 1) (if IsSeparator c then i else acc)).
    cbv zeta in IH.
    assert (Hlen : wlength (c :: s) = wlength s + 1)
      by (unfold wlength; cbn [length]; lia).
    assert (Hpos : 0 <= wlength s) by (unfold wlength; lia).
    destruct IH as [[Hplain Hr] | (Hrange & Hsep & Hafter)].
    + rewrite Hr. destruct (IsSeparator c) eqn:Hc.
      * right. split; [lia |]. split.
        -- replace (i - i) with 0 by lia. exact Hc.
        -- intros j Hj. rewrite at_cons by lia. apply plain_at. exact Hplain.
      * left. split; [| reflexivity].
        cbn [plain forallb]. rewrite Hc. exact Hplain.
    + right. split; [lia |]. split.
      * rewrite at_cons by lia.
        replace (find_last_from kSeparators (kSeparatorsLength - 1) (i + 1) s
                   (if IsSeparator c then i else acc) - i - 1)
          with (find_last_from kSeparators (kSeparatorsLength - 1) (i + 1) s
                  (if IsSeparator c then i else acc) - (i + 1)) by lia.
        exact Hsep.
      * intros j Hj. rewrite at_cons by lia.
        replace (j - i - 1) with (j - (i + 1)) by lia.
        apply Hafter. lia.
Qed.

(** *** Paths under an alternate root *)

Lemma alternate_root_inv (path : wstring) :
  alternate_root path = true ->
  IsSeparator (at_ path (strip_start path - 1)) = true /\
  IsSeparator (at_ path (strip_start path)) = true /\
  (wlength path = strip_start path + 1 \/
   (strip_start path + 1 < wlength path /\
    IsSeparator (at_ path (strip_start path + 1)) = false)).
Proof.
  unfold alternate_root. cbv zeta. intros H.
  apply andb_true_iff in H. destruct H as [H H3].
  apply andb_true_iff in H. destruct H as [H1 H2].
  split; [exact H1 |]. split; [exact H2 |].
  apply orb_true_iff in H3. destruct H3 as [H3 | H3].
  - left. zbool. exact H3.
  - right. apply andb_true_iff in H3. destruct H3 as [Hlt Hns].
    apply Z.ltb_lt in Hlt. apply negb_true_iff in Hns. auto.
Qed.

Lemma strip_double_length (path : wstring) :
  strip_start path + 1 < wlength path ->
  IsSeparator (at_ path (strip_start path + 1)) = false ->
  strip_start path + 1 < wlength (StripTrailingSeparators path).
Proof.
  intros Hlen Hns.
  destruct (strip_suffix path) as [suffix [E Hall]].
  pose proof (strip_start_cases path) as Hs.
  set (r := StripTrailingSeparators path) in *.
  destruct (Z.lt_ge_cases (strip_start path + 1) (wlength r))
    as [Hlt | Hge]; [exact Hlt |].
  exfalso. unfold at_ in Hns.
  remember (Z.to_nat (strip_start path + 1)) as n eqn:Hn.
  assert (Hl : length path = (length r + length suffix)%nat)
    by (rewrite E at 1; apply length_app).
  rewrite E in Hns. unfold wlength in *.
  rewrite app_nth2 in Hns by lia.
  rewrite forallb_forall in Hall.
  rewrite Hall in Hns; [discriminate |].
  apply nth_In. lia.
Qed.

(** The strip of a path under an alternate root keeps the root, and so
    does the final step of [GetParent]. *)
Lemma strip_alternate_root (path : wstring) :
  alternate_root path = true ->
  let r := StripTrailingSeparators path in
  strip_start path + 1 <= wlength r /\
  (strip_start path + 1 < wlength path ->
   strip_start path + 1 < wlength r) /\
  firstn (Z.to_nat (strip_start path + 1)) r =
  firstn (Z.to_nat (strip_start path + 1)) path.
Proof.
  intros H. cbv zeta.
  destruct (alternate_root_inv path H) as (H1 & H2 & [Hroot | [Hlen Hns]]).
  - rewrite (strip_keeps_double_root path Hroot H1 H2).
    split; [lia |]. split; [lia | reflexivity].
  - pose proof (strip_double_length path Hlen Hns) as Hr.
    split; [lia |]. split; [intros _; exact Hr |].
    apply strip_keeps_double_prefix; assumption.
Qed.

(** A prefix of a path under an alternate root that reaches beyond the two
    separators is under the same alternate root. *)
Lemma alternate_root_prefix (cut rest : wstring) :
  alternate_root (cut ++ rest) = true ->
  strip_start (cut ++ rest) + 1 <= wlength cut ->
  (wlength cut = strip_start (cut ++ rest) + 1 \/
   strip_start (cut ++ rest) + 1 < wlength cut) ->
  strip_start cut = strip_start (cut ++ rest) /\ alternate_root cut = true.
Proof.
  intros H Hlen Hshape.
  pose proof (strip_start_cases (cut ++ rest)) as Hs.
  assert (Hstart : strip_start cut = strip_start (cut ++ rest))
    by (symmetry; apply strip_start_app; lia).
  split; [exact Hstart |].
  destruct (alternate_root_inv _ H) as (H1 & H2 & H3).
  unfold alternate_root. cbv zeta. rewrite Hstart.
  rewrite at_app in H1 by lia. rewrite at_app in H2 by lia.
  rewrite H1, H2. cbn [andb].
  destruct Hshape as [Heq | Hlt].
  - replace (wlength cut =? strip_start (cut ++ rest) + 1) with true
      by (symmetry; apply Z.eqb_eq; exact Heq).
    reflexivity.
  - destruct H3 as [Hroot | [_ Hns]].
    + exfalso. unfold wlength in *. rewrite length_app in Hroot. lia.
    + rewrite at_app in Hns by lia. rewrite Hns.
      replace (strip_start (cut ++ rest) + 1 <? wlength cut) with true
        by (symmetry; apply Z.ltb_lt; exact Hlt).
      cbn [negb andb]. apply orb_true_r.
Qed.

Lemma GetParent_keeps_alternate_root (path : wstring) :
  alternate_root path = true -> wlength path < npos ->
  firstn (Z.to_nat (strip_start path + 1)) (GetParent path) =
  firstn (Z.to_nat (strip_start path + 1)) path.
Proof.
  intros Halt Hmax.
  pose proof (strip_start_cases path) as Hs.
  destruct (strip_alternate_root path Halt) as (Hr1 & Hr2 & Hr3).
  destruct (strip_suffix path) as [suffix [E Hall]].
  rewrite GetParent_unfold.
  set (start := strip_start path) in *.
  set (p := StripTrailingSeparators path) in *.
  cbv zeta.
  assert (Hple : wlength p <= wlength path).
  { assert (Hl : length path = (length p + length suffix)%nat)
      by (rewrite E at 1; apply length_app).
    unfold wlength. lia. }
  rewrite E in Halt.
  assert (Hstart_app : strip_start (p ++ suffix) = start)
    by (rewrite <- E; reflexivity).
  assert (Hp : strip_start p = start /\ alternate_root p = true).
  { rewrite <- Hstart_app. apply alternate_root_prefix.
    - exact Halt.
    - rewrite Hstart_app. exact Hr1.
    - rewrite Hstart_app. lia. }
  destruct Hp as [Hstart Haltp].
  destruct (alternate_root_inv p Haltp) as (H1 & H2 & H3).
  rewrite Hstart in H1, H2, H3.
  (* the last separator *)
  destruct (find_last_from_spec p 0 npos)
    as [[Hplain _] | (Hrange & Hsep & Hafter)].
  { rewrite (plain_at p Hplain) in H2. discriminate. }
  set (ls := find_last_from kSeparators (kSeparatorsLength - 1) 0 p npos)
    in *.
  assert (Hls : start <= ls).
  { destruct (Z.lt_ge_cases ls start) as [Hlt | Hge]; [| exact Hge].
    specialize (Hafter start). rewrite Z.sub_0_r in Hafter.
    rewrite Hafter in H2 by lia. discriminate. }
  replace (ls =? npos) with false by (symmetry; apply Z.eqb_neq; lia).
  (* the piece that is kept, as a prefix of [p] *)
  assert (Hfinish : forall k : Z,
             (k = start + 1 \/ (start + 1 < k /\ k <= wlength p)) ->
             let final := StripTrailingSeparators (resize p k) in
             firstn (Z.to_nat (start + 1))
               (if wlength final =? 0 then kCurrentDirectory else final) =
             firstn (Z.to_nat (start + 1)) path).
  { intros k Hk. cbv zeta.
    assert (Hkp : 0 <= k <= wlength p) by lia.
    rewrite (resize_cut p k Hkp).
    pose proof (firstn_skipn (Z.to_nat k) p) as Hsplit.
    set (cut := firstn (Z.to_nat k) p) in *.
    assert (Hcutlen : wlength cut = k).
    { unfold cut, wlength in *. rewrite length_firstn. lia. }
    rewrite <- Hsplit in Haltp, Hstart.
    destruct (alternate_root_prefix cut _ Haltp) as [Hcs Hca].
    - rewrite Hstart. lia.
    - rewrite Hstart. lia.
    - rewrite Hstart in Hcs.
      destruct (strip_alternate_root cut Hca) as (Hc1 & _ & Hc3).
      rewrite Hcs in Hc1, Hc3.
      replace (wlength (StripTrailingSeparators cut) =? 0) with false
        by (symmetry; apply Z.eqb_neq; lia).
      rewrite Hc3. rewrite <- Hr3.
      rewrite <- Hsplit. symmetry. apply firstn_prefix.
      unfold wlength in Hcutlen. lia. }
  assert (Hletter : wrap (FindDriveLetter p + 2) = start) by exact Hstart.
  destruct (FindDriveLetter_cases p) as [Hl | Hl]; rewrite Hl in *.
  - change (wrap (1 + 2)) with 3 in Hletter.
    change (wrap (1 + 1)) with 2. change (wrap (1 + 2)) with 3.
    change (wrap (1 + 3)) with 4.
    replace (ls =? 2) with false by (symmetry; apply Z.eqb_neq; lia).
    destruct (ls =? 3) eqn:E3.
    + replace (at_ p 2) with (at_ p (start - 1)) by (f_equal; lia).
      rewrite H1. cbn [andb].
      replace 4 with (start + 1) by lia. apply Hfinish. left. reflexivity.
    + cbn [andb].
      replace (ls =? 0) with false by (symmetry; apply Z.eqb_neq; lia).
      cbn [negb]. apply Hfinish. right. zbool.
      destruct H3 as [Hroot | [Hlen Hns]]; [lia |].
      assert (ls <> start + 1).
      { intros Heq. rewrite Heq, Z.sub_0_r in Hsep.
        rewrite Hsep in Hns. discriminate. }
      lia.
  - change (wrap (npos + 2)) with 1 in Hletter.
    change (wrap (npos + 1)) with 0. change (wrap (npos + 2)) with 1.
    change (wrap (npos + 3)) with 2.
    replace (ls =? 0) with false by (symmetry; apply Z.eqb_neq; lia).
    destruct (ls =? 1) eqn:E1.
    + replace (at_ p 0) with (at_ p (start - 1)) by (f_equal; lia).
      rewrite H1. cbn [andb].
      replace 2 with (start + 1) by lia. apply Hfinish. left. reflexivity.
    + cbn [andb negb]. apply Hfinish. right. zbool.
      destruct H3 as [Hroot | [Hlen Hns]]; [lia |].
      assert (ls <> start + 1).
      { intros Heq. rewrite Heq, Z.sub_0_r in Hsep.
        rewrite Hsep in Hns. discriminate. }
      lia.
Qed.

Lemma GetParent_root (R : wstring) : is_root R = true -> GetParent R = R.
Proof.
  intros H.
  destruct R as [| a [| b [| c [| d [| e R]]]]]; cbn [is_root] in H;
    try discriminate.
  - apply (GetParent_root_child a []); [exact H | reflexivity].
  - apply orb_true_iff in H. destruct H as [H | H];
      apply andb_true_iff in H; destruct H as [Ha Hb].
    + apply (GetParent_double_root_child a b []); auto.
    + zbool. subst b. apply (GetParent_drive_relative a []); auto.
  - apply andb_true_iff in H. destruct H as [H Hc].
    apply andb_true_iff in H. destruct H as [Ha Hb]. zbool. subst b.
    apply (GetParent_drive_root_child a c []); auto.
  - apply andb_true_iff in H. destruct H as [H Hd].
    apply andb_true_iff in H. destruct H as [H Hc].
    apply andb_true_iff in H. destruct H as [Ha Hb]. zbool. subst b.
    apply (GetParent_drive_double_root_child a c d []); auto.
Qed.

(** * The path algorithm *)

(** C2: [GetParent] gives the reference values on drive-letter paths, the
    parent of "C:\a\b" is "C:\a", that of "C:\a" is "C:\" and that of
    "C:foo" is the drive alone, "C:"; and every root path, "C:\" among
    them, is its own parent. *)
Theorem GetParent_drive_letter_paths :
  GetParent (L "C:\a\b") = L "C:\a" /\
  GetParent (L "C:\a") = L "C:\" /\
  GetParent (L "C:foo") = L "C:" /\
  GetParent (L "C:\") = L "C:\" /\
  (forall R : wstring, is_root R = true -> GetParent R = R).
Proof.
  split; [vm_compute; reflexivity |].
  split; [vm_compute; reflexivity |].
  split; [vm_compute; reflexivity |].
  split; [vm_compute; reflexivity |].
  exact GetParent_root.
Qed.

Lemma GetParent_drive_letter_paths_witness :
  is_root (L "C:\") = true /\ GetParent (L "C:\") = L "C:\".
Proof.
  split; [reflexivity |].
  apply (proj2 (proj2 (proj2 (proj2 GetParent_drive_letter_paths)))).
  reflexivity.
Defined.



(** C7: [GetParent] keeps a leading double separator: the parent of
    "\\server\share" is "\\server", which still starts with "\\"; the parent
    of every path under an alternate root starts with the same drive
    letter, if any, and the same two separators; and when the last
    separator sits right behind another one at the root, the parent is the
    drive letter, if any, and the two separators. *)
Theorem GetParent_alternate_root :
  GetParent (L "\\server\share") = L "\\server" /\
  firstn 2 (GetParent (L "\\server\share")) = L "\\" /\
  GetParent (L "\\server") = L "\\" /\
  (forall path : wstring,
      alternate_root path = true -> wlength path < npos ->
      firstn (Z.to_nat (strip_start path + 1)) (GetParent path) =
      firstn (Z.to_nat (strip_start path + 1)) path) /\
  (forall (s1 s2 : wchar_t) (name : wstring),
      IsSeparator s1 = true -> IsSeparator s2 = true -> plain name = true ->
      GetParent (s1 :: s2 :: name) = [s1; s2]) /\
  (forall (l s1 s2 : wchar_t) (name : wstring),
      is_drive_letter l = true ->
      IsSeparator s1 = true -> IsSeparator s2 = true -> plain name = true ->
      GetParent (l :: 58 :: s1 :: s2 :: name) = [l; 58; s1; s2]).
Proof.
  split; [vm_compute; reflexivity |].
  split; [vm_compute; reflexivity |].
  split; [vm_compute; reflexivity |].
  split; [exact GetParent_keeps_alternate_root |].
  split.
  - exact GetParent_double_root_child.
  - exact GetParent_drive_double_root_child.
Qed.

Lemma GetParent_alternate_root_witness :
  firstn 4 (GetParent (L "C:\\server\share\docs")) = L "C:\\" /\
  GetParent (L "C:\\share") = L "C:\\".
Proof.
  split.
  - apply (proj1 (proj2 (proj2 (proj2 GetParent_alternate_root)))
             (L "C:\\server\share\docs")); reflexivity.
  - apply (proj2 (proj2 (proj2 (proj2 (proj2 GetParent_alternate_root))))
             67 92 92 (L "share"));
      reflexivity.
Defined.

(** * Calls into the operating system *)

Section OSFacts.

Context {OS : Type} (api : Api OS).

Lemma bind_eq {A B : Type} (c : M OS A) (k : A -> M OS B) (w : World OS) :
  bind c k w = k (fst (c w)) (snd (c w)).
Proof. unfold bind. destruct (c w). reflexivity. Qed.

Lemma syscall_eq {A : Type} (c : Call) (f : OS -> A * OS) (w : World OS) :
  syscall c f w =
  (fst (f (os_state w)), mkWorld (snd (f (os_state w))) (calls w ++ [c])).
Proof. unfold syscall. destruct (f (os_state w)). reflexivity. Qed.

Lemma GetCurrentDirectory_eq (dir : wstring) (w : World OS) :
  GetCurrentDirectory api dir w =
  (let r := fst (sys_GetCurrentDirectory api MAX_PATH (os_state w)) in
   if (fst r =? 0) || (fst r >? MAX_PATH) then (false, dir)
   else (true, StripTrailingSeparators (wstring_of_buffer (snd r))),
   mkWorld (os_after_get api w)
           (calls w ++ [CallGetCurrentDirectory MAX_PATH])).
Proof.
  unfold GetCurrentDirectory, os_after_get.
  rewrite bind_eq, syscall_eq. cbn [fst snd].
  destruct (fst (sys_GetCurrentDirectory api MAX_PATH (os_state w)))
    as [len buffer].
  cbn [fst snd]. destruct ((len =? 0) || (len >? MAX_PATH)); reflexivity.
Qed.

Lemma SetCurrentDirectory_eq (directory : wstring) (w : World OS) :
  SetCurrentDirectory api directory w =
  (negb (fst (sys_SetCurrentDirectory api directory (os_state w)) =? 0),
   mkWorld (snd (sys_SetCurrentDirectory api directory (os_state w)))
           (calls w ++ [CallSetCurrentDirectory directory])).
Proof.
  unfold SetCurrentDirectory. rewrite bind_eq, syscall_eq. reflexivity.
Qed.

Lemma LoadLibraryW_eq (file_name : wstring) (w : World OS) :
  LoadLibraryW api file_name w =
  (fst (sys_LoadLibraryW api file_name (os_state w)),
   mkWorld (snd (sys_LoadLibraryW api file_name (os_state w)))
           (calls w ++ [CallLoadLibraryW file_name])).
Proof. unfold LoadLibraryW. apply syscall_eq. Qed.

(** Run the calls of a computation one after the other. *)
Ltac os_run :=
  unfold bind, ret;
  repeat (first [ rewrite SetCurrentDirectory_eq
                | rewrite LoadLibraryW_eq
                | rewrite syscall_eq ];
          cbn [fst snd os_state calls]).

(** The load when the directory was captured and the parent is not empty:
    redirect, load, restore. *)
Lemma LoadLibrary_redirected (path : wstring) (w : World OS) :
  captures api w = true -> empty (GetParent path) = false ->
  let s2 := snd (sys_SetCurrentDirectory api (GetParent path)
                   (os_after_get api w)) in
  let loaded := sys_LoadLibraryW api path s2 in
  LoadLibrary api path None w =
  (fst loaded,
   mkWorld (snd (sys_SetCurrentDirectory api (captured_directory api w)
                   (snd loaded)))
           (calls w ++ [CallGetCurrentDirectory MAX_PATH;
                        CallSetCurrentDirectory (GetParent path);
                        CallLoadLibraryW path;
                        CallSetCurrentDirectory (captured_directory api w)])).
Proof.
  intros Hcap Hparent. cbv zeta.
  unfold captures, captured_directory, result in *.
  unfold LoadLibrary, LoadNativeLibraryHelper.
  rewrite bind_eq.
  destruct (GetCurrentDirectory api [] w) as [[captured dir] w1] eqn:E.
  rewrite GetCurrentDirectory_eq in E. injection E as Ec Ew.
  cbn [fst snd] in *. subst captured. rewrite Hparent. cbn [negb].
  subst w1. os_run.
  rewrite <- !app_assoc. reflexivity.
Qed.

(** The load when the directory could not be captured: the load alone. *)
Lemma LoadLibrary_not_captured (path : wstring) (w : World OS) :
  captures api w = false ->
  let loaded := sys_LoadLibraryW api path (os_after_get api w) in
  LoadLibrary api path None w =
  (fst loaded,
   mkWorld (snd loaded)
           (calls w ++ [CallGetCurrentDirectory MAX_PATH;
                        CallLoadLibraryW path])).
Proof.
  intros Hcap. cbv zeta. unfold captures, result in *.
  unfold LoadLibrary, LoadNativeLibraryHelper.
  rewrite bind_eq.
  destruct (GetCurrentDirectory api [] w) as [[captured dir] w1] eqn:E.
  rewrite GetCurrentDirectory_eq in E. injection E as Ec Ew.
  cbn [fst snd] in *. subst captured.
  subst w1. os_run.
  rewrite <- !app_assoc. reflexivity.
Qed.

Lemma GetParent_not_empty (path : wstring) : empty (GetParent path) = false.
Proof.
  pose proof (GetParent_never_empty path) as H.
  destruct (GetParent path); [contradiction | reflexivity].
Qed.

(** ** The loader *)

(** C3: when the current directory was captured and the parent of the path
    is not empty, the load sets the current directory to [GetParent path],
    then calls the OS load with the path as given, and then sets the current
    directory back to the captured one, whatever the load returned, which is
    also what the loader returns. *)
Theorem LoadLibrary_redirects_then_restores (path : wstring) (w : World OS) :
  captures api w = true -> empty (GetParent path) = false ->
  calls (after (LoadLibrary api path None) w) =
    calls w ++ [CallGetCurrentDirectory MAX_PATH;
                CallSetCurrentDirectory (GetParent path);
                CallLoadLibraryW path;
                CallSetCurrentDirectory (captured_directory api w)] /\
  result (LoadLibrary api path None) w =
    fst (sys_LoadLibraryW api path
           (snd (sys_SetCurrentDirectory api (GetParent path)
                   (os_after_get api w)))).
Proof.
  intros Hcap Hparent. unfold after, result.
  pose proof (LoadLibrary_redirected path w Hcap Hparent) as E.
  cbv zeta in E. rewrite E. split; reflexivity.
Qed.

(** C8: when the current directory cannot be captured, the load makes no
    call to set the directory, neither before nor after, and still calls the
    OS load with the given path and returns its handle; and in every case,
    whatever the directory calls answer, the OS load is called. *)
Theorem LoadLibrary_tolerates_capture_failure (path : wstring)
    (w : World OS) :
  (captures api w = false ->
   LoadLibrary api path None w =
     (fst (sys_LoadLibraryW api path (os_after_get api w)),
      mkWorld (snd (sys_LoadLibraryW api path (os_after_get api w)))
              (calls w ++ [CallGetCurrentDirectory MAX_PATH;
                           CallLoadLibraryW path]))) /\
  In (CallLoadLibraryW path) (calls (after (LoadLibrary api path None) w)).
Proof.
  split.
  - intros Hcap. exact (LoadLibrary_not_captured path w Hcap).
  - unfold after. destruct (captures api w) eqn:Hcap.
    + pose proof (LoadLibrary_redirected path w Hcap
                    (GetParent_not_empty path)) as E.
      cbv zeta in E. rewrite E. cbn [snd calls].
      apply in_or_app. right. cbn. auto.
    + rewrite (LoadLibrary_not_captured path w Hcap). cbn [snd calls].
      apply in_or_app. right. cbn. auto.
Qed.

(** C10: [GetParent] never returns the empty string, so the guard of the
    loader on an empty parent never fails; a path with neither a drive
    letter nor a separator has the parent "."; whenever the current
    directory is captured the load redirects and restores, and for the bare
    name "foo.dll" the directory it switches to is ".". *)
Theorem GetParent_never_empty_so_load_redirects :
  (forall path : wstring, GetParent path <> []) /\
  (forall path : wstring, empty (GetParent path) = false) /\
  (forall path : wstring,
      FindDriveLetter path = npos -> plain path = true ->
      GetParent path = kCurrentDirectory) /\
  kCurrentDirectory = L "." /\
  (forall (path : wstring) (w : World OS),
      captures api w = true ->
      calls (after (LoadLibrary api path None) w) =
        calls w ++ [CallGetCurrentDirectory MAX_PATH;
                    CallSetCurrentDirectory (GetParent path);
                    CallLoadLibraryW path;
                    CallSetCurrentDirectory (captured_directory api w)]) /\
  (forall w : World OS,
      captures api w = true ->
      calls (after (LoadLibrary api (L "foo.dll") None) w) =
        calls w ++ [CallGetCurrentDirectory MAX_PATH;
                    CallSetCurrentDirectory (L ".");
                    CallLoadLibraryW (L "foo.dll");
                    CallSetCurrentDirectory (captured_directory api w)]).
Proof.
  assert (Hload : forall (path : wstring) (w : World OS),
             captures api w = true ->
             calls (after (LoadLibrary api path None) w) =
               calls w ++ [CallGetCurrentDirectory MAX_PATH;
                           CallSetCurrentDirectory (GetParent path);
                           CallLoadLibraryW path;
                           CallSetCurrentDirectory
                             (captured_directory api w)]).
  { intros path w Hcap. unfold after.
    pose proof (LoadLibrary_redirected path w Hcap
                  (GetParent_not_empty path)) as E.
    cbv zeta in E. rewrite E. reflexivity. }
  split; [exact GetParent_never_empty |].
  split; [exact GetParent_not_empty |].
  split; [exact GetParent_plain |].
  split; [reflexivity |].
  split; [exact Hload |].
  intros w Hcap. rewrite (Hload (L "foo.dll") w Hcap).
  replace (GetParent (L "foo.dll")) with (L ".") by (vm_compute; reflexivity).
  reflexivity.
Qed.

End OSFacts.

(** * The DynamicLibrary handle *)

Lemma c_str_no_null (s : string) : no_null s = true -> c_str s = s.
Proof.
  induction s as [| c s IH]; intros H; [reflexivity |].
  cbn [no_null] in H. apply andb_true_iff in H. destruct H as [Hc Hs].
  cbn [c_str]. apply negb_true_iff in Hc. rewrite Hc, (IH Hs). reflexivity.
Qed.

Section HandleFacts.

Context {OS : Type} (api : Api OS).

Lemma UnloadNativeLibrary_live (library : HMODULE) (w : World OS) :
  library <> nullptr ->
  calls (after (UnloadNativeLibrary api library) w) =
  calls w ++ [CallFreeLibrary library].
Proof.
  intros H. unfold after, UnloadNativeLibrary.
  destruct (library =? nullptr) eqn:E; [zbool; contradiction |].
  unfold bind, ret. rewrite syscall_eq. reflexivity.
Qed.

Lemma WellKnownLibrary_eq (name : wstring) (w : World OS) :
  WellKnownLibrary api name w =
  if empty name then (false, w)
  else (resident api name (os_state w),
        mkWorld (os_state w) (calls w ++ [CallGetModuleHandle name])).
Proof.
  unfold WellKnownLibrary. destruct (empty name); reflexivity.
Qed.

Lemma is_valid_result (this : DynamicLibrary) (w : World OS) :
  result (is_valid api this) w =
  negb (library_ this =? nullptr) ||
  (negb (empty (library_name_ this)) &&
   resident api (library_name_ this) (os_state w)).
Proof.
  unfold result, is_valid.
  destruct (negb (library_ this =? nullptr)); [reflexivity |].
  rewrite WellKnownLibrary_eq.
  destruct (empty (library_name_ this)); reflexivity.
Qed.

Lemma is_valid_state (this : DynamicLibrary) (w : World OS) :
  os_state (after (is_valid api this) w) = os_state w.
Proof.
  unfold after, is_valid.
  destruct (negb (library_ this =? nullptr)); [reflexivity |].
  rewrite WellKnownLibrary_eq.
  destruct (empty (library_name_ this)); reflexivity.
Qed.

(** The answer of [is_valid] is read off the OS state; the log does not
    matter. *)
Lemma is_valid_same_state (this : DynamicLibrary) (w w' : World OS) :
  os_state w = os_state w' ->
  result (is_valid api this) w = result (is_valid api this) w'.
Proof. intros E. rewrite !is_valid_result, E. reflexivity. Qed.

Lemma by_handle_result (library : HMODULE) (name : option string)
    (w : World OS) :
  result (GetFunctionPointerFromNativeLibrary api library name) w =
  match name with
  | None => nullptr
  | Some n => resolve api library n (os_state w)
  end.
Proof. destruct name; reflexivity. Qed.

Lemma by_name_result (library_name : wstring) (name : option string)
    (w : World OS) :
  result (GetFunctionPointerFromNativeLibrary_by_name api library_name name)
         w =
  match name with
  | None => nullptr
  | Some n =>
      if resident api library_name (os_state w)
      then resolve api (sys_GetModuleHandle api library_name (os_state w)) n
             (os_state w)
      else nullptr
  end.
Proof.
  destruct name as [n |]; [| reflexivity].
  unfold result, GetFunctionPointerFromNativeLibrary_by_name, resident.
  unfold bind, query. cbn [os_state].
  destruct (nullptr =? sys_GetModuleHandle api library_name (os_state w));
    reflexivity.
Qed.

(** What the untyped [GetFunctionPointer] returns, in one formula. *)
Lemma GetFunctionPointer_result (this : DynamicLibrary)
    (function_name : option string) (w : World OS) :
  result (GetFunctionPointer api this function_name) w =
  if result (is_valid api this) w then
    if empty (library_name_ this)
    then match function_name with
         | None => nullptr
         | Some n => resolve api (library_ this) n (os_state w)
         end
    else match function_name with
         | None => nullptr
         | Some n =>
             if resident api (library_name_ this) (os_state w)
             then resolve api
                    (sys_GetModuleHandle api (library_name_ this)
                       (os_state w)) n (os_state w)
             else nullptr
         end
  else nullptr.
Proof.
  unfold GetFunctionPointer.
  unfold result at 1. rewrite bind_eq.
  fold (result (is_valid api this) w). fold (after (is_valid api this) w).
  pose proof (is_valid_state this w) as Hs.
  destruct (result (is_valid api this) w); cbn [negb]; [| reflexivity].
  destruct (empty (library_name_ this)).
  - fold (result (GetFunctionPointerFromNativeLibrary api (library_ this)
                    function_name) (after (is_valid api this) w)).
    rewrite by_handle_result, Hs. reflexivity.
  - fold (result (GetFunctionPointerFromNativeLibrary_by_name api
                    (library_name_ this) function_name)
                 (after (is_valid api this) w)).
    rewrite by_name_result, Hs. reflexivity.
Qed.

Lemma GetFunctionPointer_typed_result (this : DynamicLibrary)
    (InterfaceName : string) (w : World OS) :
  result (is_valid api this) w = false ->
  result (GetFunctionPointer_typed api this InterfaceName) w = nullptr.
Proof.
  intros Hv. unfold GetFunctionPointer_typed.
  unfold result at 1. rewrite bind_eq.
  fold (result (is_valid api this) w). fold (after (is_valid api this) w).
  rewrite Hv. cbn [negb andb].
  destruct (string_empty InterfaceName); [reflexivity |].
  fold (result (GetFunctionPointer api this (Some InterfaceName))
          (after (is_valid api this) w)).
  rewrite GetFunctionPointer_result.
  rewrite (is_valid_same_state this _ w (is_valid_state this w)), Hv.
  reflexivity.
Qed.

(** C9: [WellKnownLibrary] answers false for the empty name without asking
    the OS, and for any other name answers true exactly when the OS reports
    a module of that name. *)
Theorem WellKnownLibrary_resident (name : wstring) (w : World OS) :
  WellKnownLibrary api [] w = (false, w) /\
  (name <> [] ->
   (result (WellKnownLibrary api name) w = true <->
    sys_GetModuleHandle api name (os_state w) <> nullptr)).
Proof.
  split; [reflexivity |].
  intros Hne. unfold result. rewrite WellKnownLibrary_eq.
  destruct name as [| c name]; [contradiction |].
  cbn [empty fst]. unfold resident.
  destruct (nullptr =? sys_GetModuleHandle api (c :: name) (os_state w))
    eqn:E; zbool; cbn [negb]; split; intros H; congruence.
Qed.

(** C5, as the code has it: [Release] returns the handle held and leaves
    the null handle behind, keeping the name, with no call to the OS;
    destroying the released instance makes no call at all, whereas
    destroying an instance that still holds a handle frees it.  After
    [Release] the instance is valid exactly when it holds a name that is
    resident: an instance that holds no name is not valid, one that holds a
    name stays valid while the name is resident.  [Release] returns null
    exactly when the handle held is null, as for an instance built from a
    name; after a [Reset] on such an instance it returns the handle of the
    [Reset]. *)
Theorem Release_transfers_ownership (this : DynamicLibrary) (w : World OS) :
  fst (Release this) = library_ this /\
  library_ (snd (Release this)) = nullptr /\
  library_name_ (snd (Release this)) = library_name_ this /\
  (owned_mode this = true ->
   result (is_valid api (snd (Release this))) w = false) /\
  DynamicLibrary_destroy api (snd (Release this)) w = (tt, w) /\
  (library_ this <> nullptr ->
   calls (after (DynamicLibrary_destroy api this) w) =
   calls w ++ [CallFreeLibrary (library_ this)]) /\
  (forall name : wstring,
      fst (Release (DynamicLibrary_of_name name)) = nullptr) /\
  result (is_valid api (snd (Release this))) w =
    negb (empty (library_name_ this)) &&
    resident api (library_name_ this) (os_state w) /\
  (fst (Release this) = nullptr <-> library_ this = nullptr) /\
  (forall (name : wstring) (someHandle : HMODULE),
      fst (Release (result (Reset api (DynamicLibrary_of_name name)
                              someHandle) w)) = someHandle).
Proof.
  split; [reflexivity |]. split; [reflexivity |]. split; [reflexivity |].
  split.
  { intros Howned. rewrite is_valid_result. cbn [Release snd library_
      library_name_]. unfold owned_mode in Howned. rewrite Howned.
    reflexivity. }
  split; [reflexivity |]. split.
  { intros Hlive. apply UnloadNativeLibrary_live. exact Hlive. }
  split; [reflexivity |]. split.
  { rewrite is_valid_result. reflexivity. }
  split; [split; intros H; exact H |].
  intros name someHandle. reflexivity.
Qed.

(** C4, as the code has it: the untyped [GetFunctionPointer] returns null
    whenever the name is the null pointer or the instance is not valid, and
    has no test for the empty name: on a valid instance every other name,
    the empty one too, is resolved by the OS, in the handle held when the
    instance holds no library name, and else in the resident module of the
    library name held, with null when that module is not resident.  The
    typed member returns null whenever the instance is not valid; the
    overload on a raw handle returns null whenever the handle is null or the
    name is empty; the overloads on a pointer and on a weak pointer return
    null when there is no instance, and else are the typed member on the
    name cut at its first null character, which is the name itself when it
    has none, so they return null whenever the instance is not valid. *)
Theorem GetFunctionPointer_null_conditions (this : DynamicLibrary)
    (w : World OS) :
  result (GetFunctionPointer api this None) w = nullptr /\
  (forall function_name : option string,
      result (is_valid api this) w = false ->
      result (GetFunctionPointer api this function_name) w = nullptr) /\
  (forall n : string,
      result (is_valid api this) w = true ->
      result (GetFunctionPointer api this (Some n)) w =
      if empty (library_name_ this)
      then resolve api (library_ this) n (os_state w)
      else if resident api (library_name_ this) (os_state w)
           then resolve api
                  (sys_GetModuleHandle api (library_name_ this) (os_state w))
                  n (os_state w)
           else nullptr) /\
  (forall InterfaceName : string,
      result (is_valid api this) w = false ->
      result (GetFunctionPointer_typed api this InterfaceName) w = nullptr) /\
  (forall (library : HMODULE) (InterfaceName : string),
      library = nullptr \/ string_empty InterfaceName = true ->
      result (GetFunctionPointer_of_handle api library InterfaceName) w =
      nullptr) /\
  (forall InterfaceName : string,
      result (GetFunctionPointer_of_pointer api None InterfaceName) w =
        nullptr /\
      result (GetFunctionPointer_of_weak_ptr api None InterfaceName) w =
        nullptr) /\
  (forall InterfaceName : string,
      GetFunctionPointer_of_pointer api (Some this) InterfaceName =
        GetFunctionPointer_typed api this (c_str InterfaceName) /\
      GetFunctionPointer_of_weak_ptr api (Some this) InterfaceName =
        GetFunctionPointer_typed api this (c_str InterfaceName)) /\
  (forall InterfaceName : string,
      no_null InterfaceName = true ->
      GetFunctionPointer_of_pointer api (Some this) InterfaceName =
        GetFunctionPointer_typed api this InterfaceName /\
      GetFunctionPointer_of_weak_ptr api (Some this) InterfaceName =
        GetFunctionPointer_typed api this InterfaceName) /\
  (forall InterfaceName : string,
      result (is_valid api this) w = false ->
      result (GetFunctionPointer_of_pointer api (Some this) InterfaceName) w
        = nullptr /\
      result (GetFunctionPointer_of_weak_ptr api (Some this) InterfaceName) w
        = nullptr).
Proof.
  split.
  { rewrite GetFunctionPointer_result.
    destruct (result (is_valid api this) w); [| reflexivity].
    destruct (empty (library_name_ this)); reflexivity. }
  split.
  { intros function_name Hv. rewrite GetFunctionPointer_result, Hv.
    reflexivity. }
  split.
  { intros n Hv. rewrite GetFunctionPointer_result, Hv. reflexivity. }
  split.
  { intros InterfaceName Hv.
    apply GetFunctionPointer_typed_result. exact Hv. }
  split.
  { intros library InterfaceName H. unfold GetFunctionPointer_of_handle.
    destruct H as [H | H].
    - subst library. reflexivity.
    - rewrite H, orb_true_r. reflexivity. }
  split.
  { intros InterfaceName. split; reflexivity. }
  split.
  { intros InterfaceName. split; reflexivity. }
  split.
  { intros InterfaceName Hn.
    unfold GetFunctionPointer_of_pointer, GetFunctionPointer_of_weak_ptr.
    rewrite (c_str_no_null InterfaceName Hn). split; reflexivity. }
  intros InterfaceName Hv.
  unfold GetFunctionPointer_of_pointer, GetFunctionPointer_of_weak_ptr.
  split; apply GetFunctionPointer_typed_result; exact Hv.
Qed.

(** C1, as the code has it: [Reset] on an instance built from a name frees
    nothing and stores the handle next to the name, which it keeps.
    [is_valid] then holds exactly when the handle is not null or the name is
    not empty and resident; with an empty name both [is_valid] and
    [GetFunctionPointer] go by the handle alone; with any other name
    [GetFunctionPointer] resolves in the resident module of that name, and
    returns null when there is none, whatever the handle. *)
Theorem Reset_keeps_the_name (name : wstring) (someHandle : HMODULE)
    (w : World OS) :
  let this := mkDynamicLibrary name someHandle in
  Reset api (DynamicLibrary_of_name name) someHandle w = (this, w) /\
  (forall w' : World OS,
      result (is_valid api this) w' =
      negb (someHandle =? nullptr) ||
      (negb (empty name) && resident api name (os_state w'))) /\
  (forall (w' : World OS) (function_name : option string),
      name = [] ->
      result (is_valid api this) w' = negb (someHandle =? nullptr) /\
      result (GetFunctionPointer api this function_name) w' =
      if someHandle =? nullptr then nullptr
      else match function_name with
           | None => nullptr
           | Some n => resolve api someHandle n (os_state w')
           end) /\
  (forall (w' : World OS) (n : string),
      name <> [] ->
      result (GetFunctionPointer api this (Some n)) w' =
      if resident api name (os_state w')
      then resolve api (sys_GetModuleHandle api name (os_state w')) n
             (os_state w')
      else nullptr).
Proof.
  cbv zeta. split; [reflexivity |].
  split; [intros w'; apply is_valid_result |].
  split.
  - intros w' function_name Hname. subst name.
    rewrite GetFunctionPointer_result, is_valid_result.
    cbn [library_ library_name_ empty negb andb]. rewrite orb_false_r.
    split; [reflexivity |].
    destruct (someHandle =? nullptr); reflexivity.
  - intros w' n Hname.
    rewrite GetFunctionPointer_result, is_valid_result.
    cbn [library_ library_name_].
    destruct name as [| c name]; [contradiction |]. cbn [empty negb andb].
    destruct (resident api (c :: name) (os_state w'));
      destruct (negb (someHandle =? nullptr)); reflexivity.
Qed.

End HandleFacts.

(** * The claims on the mock operating system *)

Lemma LoadLibrary_redirects_then_restores_witness :
  calls (after (LoadLibrary Mock.api (L "C:\plugins\foo.dll") None)
               bare_world) =
    [CallGetCurrentDirectory MAX_PATH;
     CallSetCurrentDirectory (L "C:\plugins");
     CallLoadLibraryW (L "C:\plugins\foo.dll");
     CallSetCurrentDirectory (L "D:\work")] /\
  result (LoadLibrary Mock.api (L "C:\plugins\foo.dll") None) bare_world =
    nullptr.
Proof.
  destruct (LoadLibrary_redirects_then_restores Mock.api
              (L "C:\plugins\foo.dll") bare_world eq_refl eq_refl)
    as [Hcalls Hresult].
  split.
  - rewrite Hcalls. vm_compute. reflexivity.
  - rewrite Hresult. vm_compute. reflexivity.
Defined.

Lemma LoadLibrary_tolerates_capture_failure_witness :
  LoadLibrary Mock.api (L "foo.dll") None blind_world =
  (4096,
   mkWorld (os_state blind_world)
           [CallGetCurrentDirectory MAX_PATH; CallLoadLibraryW (L "foo.dll")]).
Proof.
  rewrite (proj1 (LoadLibrary_tolerates_capture_failure Mock.api
                    (L "foo.dll") blind_world) eq_refl).
  vm_compute. reflexivity.
Defined.

Lemma GetParent_never_empty_so_load_redirects_witness :
  calls (after (LoadLibrary Mock.api (L "foo.dll") None) bare_world) =
    [CallGetCurrentDirectory MAX_PATH;
     CallSetCurrentDirectory (L ".");
     CallLoadLibraryW (L "foo.dll");
     CallSetCurrentDirectory (L "D:\work")].
Proof.
  rewrite (proj2 (proj2 (proj2 (proj2 (proj2
             (GetParent_never_empty_so_load_redirects Mock.api)))))
             bare_world eq_refl).
  vm_compute. reflexivity.
Defined.

Lemma WellKnownLibrary_resident_witness :
  result (WellKnownLibrary Mock.api (L "user32")) world_with_user32 = true.
Proof.
  apply (proj2 (WellKnownLibrary_resident Mock.api (L "user32")
                  world_with_user32)).
  - discriminate.
  - vm_compute. discriminate.
Defined.

Lemma Release_transfers_ownership_witness :
  result (is_valid Mock.api (snd (Release (DynamicLibrary_of_handle 4096))))
         world_with_user32 = false /\
  calls (after (DynamicLibrary_destroy Mock.api
                  (DynamicLibrary_of_handle 4096)) world_with_user32) =
    [CallFreeLibrary 4096] /\
  result (is_valid Mock.api
            (snd (Release (mkDynamicLibrary (L "user32") 4096))))
         world_with_user32 = true.
Proof.
  pose proof (Release_transfers_ownership Mock.api
                (DynamicLibrary_of_handle 4096) world_with_user32)
    as (_ & _ & _ & Hvalid & _ & Hfree & _).
  pose proof (Release_transfers_ownership Mock.api
                (mkDynamicLibrary (L "user32") 4096) world_with_user32)
    as (_ & _ & _ & _ & _ & _ & _ & Hnamed & _).
  split; [| split].
  - apply Hvalid. reflexivity.
  - rewrite Hfree; [reflexivity | discriminate].
  - rewrite Hnamed. reflexivity.
Defined.

(** C5 fails as stated: on the instance built from the name "user32" and
    then [Reset] with the handle 4096, which frees that handle when it is
    destroyed, [Release] returns 4096 although a name is held, and
    [is_valid] is still true afterwards while "user32" is resident. *)
Lemma Release_on_a_named_instance_with_a_handle :
  let this := result (Reset Mock.api (DynamicLibrary_of_name (L "user32"))
                        4096) world_with_user32 in
  library_name_ this = L "user32" /\
  calls (after (DynamicLibrary_destroy Mock.api this) world_with_user32) =
    [CallFreeLibrary 4096] /\
  fst (Release this) = 4096 /\
  4096 <> nullptr /\
  result (is_valid Mock.api (snd (Release this))) world_with_user32 = true.
Proof.
  cbv zeta. split; [reflexivity |]. split; [reflexivity |].
  split; [reflexivity |]. split; [discriminate | reflexivity].
Qed.

Lemma GetFunctionPointer_null_conditions_witness :
  result (GetFunctionPointer Mock.api DynamicLibrary_default
            (Some "f"%string)) world_with_user32 = nullptr /\
  result (GetFunctionPointer_typed Mock.api DynamicLibrary_default
            "f"%string) world_with_user32 = nullptr /\
  result (GetFunctionPointer_of_handle Mock.api 4096 ""%string)
         world_with_user32 = nullptr /\
  result (GetFunctionPointer Mock.api (mkDynamicLibrary (L "user32") 4096)
            (Some "f"%string)) world_without_user32 = nullptr /\
  result (GetFunctionPointer Mock.api (mkDynamicLibrary (L "user32") 4096)
            (Some "f"%string)) world_with_user32 = 222 /\
  GetFunctionPointer_of_pointer Mock.api (Some DynamicLibrary_default)
    "f"%string =
  GetFunctionPointer_typed Mock.api DynamicLibrary_default "f"%string /\
  result (GetFunctionPointer_of_weak_ptr Mock.api
            (Some DynamicLibrary_default) "f"%string) world_with_user32 =
    nullptr /\
  calls (after (GetFunctionPointer_of_pointer Mock.api
                  (Some (DynamicLibrary_of_name (L "user32")))
                  (String Ascii.zero "f")) world_without_user32) =
    [CallGetModuleHandle (L "user32")].
Proof.
  pose proof (GetFunctionPointer_null_conditions Mock.api
                DynamicLibrary_default world_with_user32)
    as (_ & Huntyped & _ & Htyped & Hhandle & _ & _ & Hplain & Hptr).
  pose proof (GetFunctionPointer_null_conditions Mock.api
                (DynamicLibrary_of_name (L "user32")) world_without_user32)
    as (_ & _ & _ & _ & _ & _ & Hcut & _).
  pose proof (GetFunctionPointer_null_conditions Mock.api
                (mkDynamicLibrary (L "user32") 4096) world_without_user32)
    as (_ & _ & Hgone & _).
  pose proof (GetFunctionPointer_null_conditions Mock.api
                (mkDynamicLibrary (L "user32") 4096) world_with_user32)
    as (_ & _ & Hthere & _).
  split; [apply Huntyped; reflexivity |].
  split; [apply Htyped; reflexivity |].
  split; [apply Hhandle; right; reflexivity |].
  split; [rewrite Hgone; reflexivity |].
  split; [rewrite Hthere; reflexivity |].
  split; [apply (Hplain "f"%string); reflexivity |].
  split; [apply (Hptr "f"%string); reflexivity |].
  rewrite (proj1 (Hcut (String Ascii.zero "f"))). reflexivity.
Defined.

(** C4 fails as stated: on a valid instance the untyped
    [GetFunctionPointer] hands the empty name to the OS resolver and returns
    what it answers, here the address 333. *)
Lemma GetFunctionPointer_empty_name_resolved :
  string_empty ""%string = true /\
  result (is_valid Mock.api (DynamicLibrary_of_handle 4096))
         world_without_user32 = true /\
  result (GetFunctionPointer Mock.api (DynamicLibrary_of_handle 4096)
            (Some ""%string)) world_without_user32 = 333 /\
  333 <> nullptr.
Proof.
  split; [reflexivity |]. split; [reflexivity |].
  split; [vm_compute; reflexivity | discriminate].
Qed.

Lemma Reset_keeps_the_name_witness :
  result (GetFunctionPointer Mock.api (mkDynamicLibrary (L "user32") 4096)
            (Some "f"%string)) world_with_user32 = 222.
Proof.
  rewrite (proj2 (proj2 (proj2
             (Reset_keeps_the_name Mock.api (L "user32") 4096
                world_with_user32))) world_with_user32 "f"%string).
  - vm_compute. reflexivity.
  - discriminate.
Defined.

(** C1 fails as stated: after [Reset] with the handle 4096 on an instance
    built from the name "user32", [GetFunctionPointer] returns null when
    "user32" is not resident, although 4096 exports the symbol, and resolves
    in the module of "user32" when it is; and after [Reset] with the null
    handle [is_valid] is still true while "user32" is resident. *)
Lemma Reset_still_goes_by_the_name :
  let named := result (Reset Mock.api (DynamicLibrary_of_name (L "user32"))
                         4096) world_with_user32 in
  let owned := DynamicLibrary_of_handle 4096 in
  let cleared := result (Reset Mock.api (DynamicLibrary_of_name (L "user32"))
                           nullptr) world_with_user32 in
  library_ named = 4096 /\
  result (GetFunctionPointer Mock.api owned (Some "f"%string))
         world_without_user32 = 111 /\
  result (GetFunctionPointer Mock.api named (Some "f"%string))
         world_without_user32 = nullptr /\
  result (GetFunctionPointer Mock.api named (Some "f"%string))
         world_with_user32 = 222 /\
  library_ cleared = nullptr /\
  result (is_valid Mock.api cleared) world_with_user32 = true /\
  result (is_valid Mock.api cleared) world_without_user32 = false.
Proof.
  cbv zeta. repeat split; vm_compute; reflexivity.
Qed.

(** * Further properties of the path algorithm *)

(** ** More on lists and indices *)

Lemma at_firstn (path : wstring) (k : nat) (i : Z) :
  0 <= i < Z.of_nat k -> at_ (firstn k path) i = at_ path i.
Proof.
  intros H. unfold at_.
  rewrite <- (firstn_skipn k path) at 2.
  destruct (Nat.lt_ge_cases (Z.to_nat i) (length (firstn k path)))
    as [Hlt | Hge].
  - symmetry. apply app_nth1. exact Hlt.
  - rewrite length_firstn in Hge.
    assert (Hk : (length path <= Z.to_nat i)%nat) by lia.
    rewrite (nth_overflow (firstn k path)) by (rewrite length_firstn; lia).
    rewrite (firstn_skipn k path). symmetry. apply nth_overflow. exact Hk.
Qed.

Lemma at_skipn (path : wstring) (k : nat) (i : Z) :
  0 <= i -> at_ (skipn k path) i = at_ path (Z.of_nat k + i).
Proof.
  intros H. unfold at_.
  replace (Z.to_nat (Z.of_nat k + i)) with (k + Z.to_nat i)%nat by lia.
  apply nth_skipn.
Qed.

Lemma forallb_at (P : wchar_t -> bool) (s : wstring) (i : Z) :
  forallb P s = true -> 0 <= i < wlength s -> P (at_ s i) = true.
Proof.
  intros H Hi. rewrite forallb_forall in H. apply H.
  unfold at_, wlength in *. apply nth_In. lia.
Qed.

Lemma FindDriveLetter_short (p : wstring) :
  wlength p < 2 -> FindDriveLetter p = npos.
Proof.
  intros H. unfold FindDriveLetter.
  replace (wlength p >=? 2) with false; [reflexivity |].
  symmetry. rewrite Z.geb_leb. apply Z.leb_gt. exact H.
Qed.

Lemma strip_start_drive_iff (p : wstring) :
  (strip_start p = 3 <-> FindDriveLetter p = 1) /\
  (strip_start p = 1 <-> FindDriveLetter p = npos).
Proof.
  unfold strip_start.
  destruct (FindDriveLetter_cases p) as [H | H]; rewrite H;
    change (wrap (1 + 2)) with 3; change (wrap (npos + 2)) with 1;
    repeat split; intros E; try reflexivity; try discriminate.
Qed.

(** ** The strip and its own result *)

Lemma strip_start_strip (path : wstring) :
  strip_start (StripTrailingSeparators path) = strip_start path.
Proof.
  destruct (strip_suffix path) as [suffix [E Hall]].
  pose proof (strip_floor path) as Hfloor.
  set (r := StripTrailingSeparators path) in *.
  destruct (Z.le_gt_cases 2 (wlength r)) as [Hlong | Hshort].
  - assert (Hs : strip_start (r ++ suffix) = strip_start r)
      by (apply strip_start_app; exact Hlong).
    rewrite <- E in Hs. symmetry. exact Hs.
  - assert (Hr : FindDriveLetter r = npos)
      by (apply FindDriveLetter_short; lia).
    destruct (FindDriveLetter_cases path) as [Hd | Hn].
    + exfalso.
      assert (Hstart : strip_start path = 3)
        by (apply (proj1 (strip_start_drive_iff path)); exact Hd).
      assert (Hlen : 2 <= wlength path).
      { destruct (Z.le_gt_cases 2 (wlength path)) as [H | H]; [exact H |].
        rewrite (FindDriveLetter_short path) in Hd by lia. discriminate. }
      lia.
    + unfold strip_start. rewrite Hr, Hn. reflexivity.
Qed.

Lemma strip_idem (path : wstring) :
  StripTrailingSeparators (StripTrailingSeparators path) =
  StripTrailingSeparators path.
Proof.
  pose proof (strip_start_strip path) as Hs.
  destruct (strip_done path) as [H | [H | (H & _)]].
  - apply strip_keeps_short. rewrite Hs. exact H.
  - apply strip_keeps_plain. exact H.
  - rewrite H. exact H.
Qed.

(** X1: [StripTrailingSeparators] is idempotent: a second pass finds nothing
    left to take off. *)
Theorem StripTrailingSeparators_idempotent (path : wstring) :
  StripTrailingSeparators (StripTrailingSeparators path) =
  StripTrailingSeparators path.
Proof. exact (strip_idem path). Qed.

(** ** More than two separators at the root *)

Lemma strip_loop_collapse (start : Z) (Hstart : start = 3 \/ start = 1) :
  forall (pos : nat) (path : wstring) (ls : Z),
    length path = pos -> start + 1 <= Z.of_nat pos ->
    (forall i : Z, start - 1 <= i < Z.of_nat pos ->
                   IsSeparator (at_ path i) = true) ->
    (Z.of_nat pos = start + 1 -> ls = start + 2) ->
    strip_loop start pos path ls = firstn (Z.to_nat start) path.
Proof.
  induction pos as [| p IH]; intros path ls Hlen Hpos Hall Hls; [lia |].
  rewrite (strip_loop_round start p path ls Hlen Hstart).
  assert (Hlast : IsSeparator (last path 0) = true).
  { rewrite <- (at_last path p Hlen). apply Hall. lia. }
  rewrite Hlast.
  replace (Z.of_nat (S p) >? start) with true
    by (symmetry; apply Z.gtb_lt; lia).
  cbn [andb].
  assert (Hinner : (Z.of_nat (S p) =? start + 1) && negb (ls =? start + 2)
                   = false).
  { destruct (Z.of_nat (S p) =? start + 1) eqn:E; [| reflexivity].
    zbool. rewrite (Hls E), Z.eqb_refl. reflexivity. }
  rewrite Hinner. cbn [andb].
  assert (Hrl : removelast path = firstn p path).
  { rewrite removelast_firstn_len, Hlen. reflexivity. }
  destruct (Z.eq_dec (Z.of_nat p) start) as [Heq | Hne].
  - rewrite strip_loop_stop by lia. rewrite Hrl. f_equal. lia.
  - rewrite IH.
    + rewrite Hrl, firstn_firstn. f_equal. lia.
    + apply length_removelast_S. exact Hlen.
    + lia.
    + intros i Hi. rewrite Hrl, at_firstn by lia. apply Hall. lia.
    + intros E. lia.
Qed.

(** X2: when everything from the root separator on is a separator and there
    are more than two of them, [StripTrailingSeparators] leaves one: the
    path is cut at the start boundary, so "///" becomes "/" and "C:\\\"
    becomes "C:\". *)
Theorem StripTrailingSeparators_collapses_many (path : wstring) :
  strip_start path + 2 <= wlength path ->
  forallb IsSeparator (skipn (Z.to_nat (strip_start path - 1)) path) = true ->
  StripTrailingSeparators path = firstn (Z.to_nat (strip_start path)) path.
Proof.
  intros Hlen Hall. rewrite StripTrailingSeparators_unfold.
  pose proof (strip_start_cases path) as Hs.
  apply strip_loop_collapse.
  - exact Hs.
  - reflexivity.
  - unfold wlength in Hlen. lia.
  - intros i Hi.
    replace i with (Z.of_nat (Z.to_nat (strip_start path - 1)) +
                    (i - (strip_start path - 1))) by lia.
    rewrite <- at_skipn by lia.
    apply forallb_at; [exact Hall |].
    unfold wlength. rewrite length_skipn. lia.
  - unfold wlength in Hlen. lia.
Qed.

Lemma StripTrailingSeparators_collapses_many_witness :
  StripTrailingSeparators (L "C:\\\/") = L "C:\" /\
  StripTrailingSeparators (L "///") = L "/".
Proof.
  split.
  - rewrite (StripTrailingSeparators_collapses_many (L "C:\\\/"));
      [reflexivity | vm_compute; discriminate | reflexivity].
  - rewrite (StripTrailingSeparators_collapses_many (L "///"));
      [reflexivity | vm_compute; discriminate | reflexivity].
Defined.

(** ** Separators behind a path that ends in something else *)

Lemma strip_start_trailing (path seps : wstring) :
  strip_start path <= wlength path ->
  forallb IsSeparator seps = true ->
  strip_start (path ++ seps) = strip_start path.
Proof.
  intros Hlen Hall.
  destruct (Z.le_gt_cases 2 (wlength path)) as [Hlong | Hshort].
  - apply strip_start_app. exact Hlong.
  - pose proof (strip_start_cases path) as Hs.
    assert (Hn : FindDriveLetter path = npos)
      by (apply FindDriveLetter_short; exact Hshort).
    assert (H1 : strip_start path = 1)
      by (apply (proj2 (strip_start_drive_iff path)); exact Hn).
    destruct path as [| c [| c' path]];
      unfold wlength in *; cbn [length] in *; try lia.
    destruct seps as [| s seps]; [reflexivity |].
    cbn [app]. rewrite H1.
    apply (proj2 (strip_start_drive_iff (c :: s :: seps))).
    unfold FindDriveLetter.
    change (at_ (c :: s :: seps) 1) with s.
    cbn [forallb] in Hall. apply andb_true_iff in Hall.
    destruct Hall as [Hsep _]. rewrite IsSeparator_spec in Hsep.
    replace (s =? 58) with false.
    + rewrite andb_false_r. reflexivity.
    + symmetry. apply Z.eqb_neq. intros E. subst s. discriminate.
Qed.

Lemma strip_trailing (path seps : wstring) :
  IsSeparator (last path 0) = false ->
  strip_start path <= wlength path ->
  forallb IsSeparator seps = true ->
  StripTrailingSeparators (path ++ seps) = path.
Proof.
  intros Hlast Hlen Hall.
  pose proof (strip_start_cases path) as Hs.
  pose proof (strip_start_trailing path seps Hlen Hall) as Hstart.
  destruct (strip_suffix (path ++ seps)) as [suffix [E Hsuf]].
  pose proof (strip_done (path ++ seps)) as Hdone. cbv zeta in Hdone.
  rewrite Hstart in Hdone.
  set (r := StripTrailingSeparators (path ++ seps)) in *.
  destruct (length path) as [| n] eqn:Hn;
    [unfold wlength in Hlen; rewrite Hn in Hlen; lia |].
  assert (Hq : length (path ++ seps) = (length r + length suffix)%nat)
    by (rewrite E at 1; apply length_app).
  rewrite length_app in Hq.
  assert (Hpl : at_ (path ++ seps) (Z.of_nat n) = last path 0).
  { rewrite at_app by (unfold wlength; lia).
    rewrite <- (at_last path n Hn). f_equal. lia. }
  (* the result is not shorter than the path *)
  assert (Hge : (length path <= length r)%nat).
  { destruct (Nat.le_gt_cases (length path) (length r)) as [H | H];
      [exact H | exfalso].
    rewrite E in Hpl. unfold at_ in Hpl.
    rewrite app_nth2 in Hpl by lia.
    rewrite <- Hpl in Hlast.
    rewrite forallb_forall in Hsuf.
    rewrite Hsuf in Hlast; [discriminate |]. apply nth_In. lia. }
  (* and not longer *)
  assert (Hle : (length r <= length path)%nat).
  { destruct (Nat.le_gt_cases (length r) (length path)) as [H | H];
      [exact H | exfalso].
    destruct (length r) as [| m] eqn:Hm; [lia |].
    assert (Hrl : last r 0 = at_ (path ++ seps) (Z.of_nat m)).
    { rewrite <- (at_last r m Hm).
      rewrite E. rewrite at_app by (unfold wlength; lia). f_equal. lia. }
    assert (Hrsep : IsSeparator (last r 0) = true).
    { rewrite Hrl. unfold at_. rewrite app_nth2 by lia.
      rewrite forallb_forall in Hall. apply Hall. apply nth_In. lia. }
    unfold wlength in *. rewrite Hm, Hn in *.
    destruct Hdone as [Hd | [Hd | (Hd1 & Hd2 & Hd3 & _)]].
    - lia.
    - rewrite Hd in Hrsep. discriminate.
    - apply (f_equal (@length Z)) in Hd1.
      rewrite length_app, Hm, Hn in Hd1. rewrite length_app, Hn in Hd2.
      assert (Hi : strip_start path - 1 = Z.of_nat n) by lia.
      rewrite Hi, Hpl, Hlast in Hd3. discriminate. }
  assert (Hr : r = firstn (length r) (r ++ suffix)).
  { rewrite firstn_prefix by lia. symmetry. apply firstn_all. }
  rewrite Hr, <- E.
  replace (length r) with (length path) by lia.
  rewrite firstn_prefix by lia. apply firstn_all.
Qed.

(** X3: separators written behind a path that ends in another unit and
    reaches the start boundary are all removed: the strip gives the path
    back. *)
Theorem StripTrailingSeparators_removes_what_was_appended
    (path seps : wstring) :
  IsSeparator (last path 0) = false ->
  strip_start path <= wlength path ->
  forallb IsSeparator seps = true ->
  StripTrailingSeparators (path ++ seps) = path.
Proof. exact (strip_trailing path seps). Qed.

Lemma StripTrailingSeparators_removes_what_was_appended_witness :
  StripTrailingSeparators (L "C:\a\b" ++ L "\/\") = L "C:\a\b".
Proof.
  apply StripTrailingSeparators_removes_what_was_appended.
  - reflexivity.
  - vm_compute. discriminate.
  - reflexivity.
Defined.

(** ** Separators and drive letters *)

(** X4: [IsSeparator] holds for the backslash and the slash and for nothing
    else; the terminator that closes the array [kSeparators] is not a
    separator. *)
Theorem IsSeparator_exactly (c : wchar_t) :
  (IsSeparator c = true <-> c = 92 \/ c = 47) /\
  IsSeparator (at_ kSeparators (kSeparatorsLength - 1)) = false.
Proof.
  split; [| reflexivity].
  rewrite IsSeparator_spec. split.
  - intros H. apply orb_true_iff in H.
    destruct H as [H | H]; zbool; auto.
  - intros [H | H]; subst c; reflexivity.
Qed.

(** X5: [FindDriveLetter] answers 1 or [npos], and it answers 1 exactly for
    the paths that begin with an ASCII letter followed by a colon. *)
Theorem FindDriveLetter_shape (path : wstring) :
  (FindDriveLetter path = 1 \/ FindDriveLetter path = npos) /\
  (FindDriveLetter path = 1 <->
   exists (l : wchar_t) (rest : wstring),
     path = l :: 58 :: rest /\
     (65 <= l <= 90 \/ 97 <= l <= 122)).
Proof.
  split; [apply FindDriveLetter_cases |]. split.
  - intros H. destruct path as [| l [| c rest]];
      try (rewrite FindDriveLetter_short in H
             by (unfold wlength; cbn [length]; lia); discriminate).
    unfold FindDriveLetter in H.
    change (at_ (l :: c :: rest) 1) with c in H.
    change (at_ (l :: c :: rest) 0) with l in H.
    destruct (wlength (l :: c :: rest) >=? 2); [| discriminate].
    destruct (c =? 58) eqn:Hc; [| discriminate]. cbn [andb] in H.
    destruct (((l >=? 65) && (l <=? 90)) || ((l >=? 97) && (l <=? 122)))
      eqn:Hl; [| discriminate].
    zbool. subst c. exists l, rest. split; [reflexivity |].
    apply orb_true_iff in Hl.
    destruct Hl as [Hl | Hl]; apply andb_true_iff in Hl;
      destruct Hl as [Ha Hb]; zbool; [left | right]; lia.
  - intros (l & rest & E & Hl). subst path.
    apply FindDriveLetter_drive. unfold is_drive_letter.
    apply orb_true_iff.
    destruct Hl as [Hl | Hl]; [left | right]; apply andb_true_iff; split.
    + rewrite Z.geb_leb. apply Z.leb_le. lia.
    + apply Z.leb_le. lia.
    + rewrite Z.geb_leb. apply Z.leb_le. lia.
    + apply Z.leb_le. lia.
Qed.

(** ** GetParent, step by step *)

Lemma GetParent_steps (path : wstring) :
  GetParent path =
  let final :=
    StripTrailingSeparators (parent_cut (StripTrailingSeparators path)) in
  if wlength final =? 0 then kCurrentDirectory else final.
Proof. reflexivity. Qed.

Lemma GetParent_of_strip (a b : wstring) :
  StripTrailingSeparators a = StripTrailingSeparators b ->
  GetParent a = GetParent b.
Proof. intros H. rewrite !GetParent_steps, H. reflexivity. Qed.

(** X6: what [GetParent] returns has nothing left to strip: it is a fixed
    point of [StripTrailingSeparators]. *)
Theorem GetParent_result_is_stripped (path : wstring) :
  StripTrailingSeparators (GetParent path) = GetParent path.
Proof.
  rewrite GetParent_steps. cbv zeta.
  destruct (wlength _ =? 0); [reflexivity | apply strip_idem].
Qed.

(** X7: [GetParent] sees the path only through its strip, so it does not
    tell a path from its stripped form, and separators written behind a
    path that ends in another unit and reaches the start boundary do not
    change the parent. *)
Theorem GetParent_ignores_trailing_separators (path : wstring) :
  GetParent (StripTrailingSeparators path) = GetParent path /\
  (forall seps : wstring,
      IsSeparator (last path 0) = false ->
      strip_start path <= wlength path ->
      forallb IsSeparator seps = true ->
      GetParent (path ++ seps) = GetParent path).
Proof.
  split.
  - apply GetParent_of_strip. apply strip_idem.
  - intros seps Hlast Hlen Hall. apply GetParent_of_strip.
    rewrite (strip_trailing path seps Hlast Hlen Hall).
    symmetry. apply strip_keeps_plain. exact Hlast.
Qed.

Lemma GetParent_ignores_trailing_separators_witness :
  GetParent (L "C:\a\b" ++ L "\\") = GetParent (L "C:\a\b").
Proof.
  apply (proj2 (GetParent_ignores_trailing_separators (L "C:\a\b"))).
  - reflexivity.
  - vm_compute. discriminate.
  - reflexivity.
Defined.

(** ** The place where GetParent cuts *)

Lemma npos_value : npos = 18446744073709551615.
Proof. reflexivity. Qed.

Lemma last_separator_found (p : wstring) :
  let ls := find_last_of p kSeparators (kSeparatorsLength - 1) in
  (plain p = true /\ ls = npos) \/
  (0 <= ls < wlength p /\
   IsSeparator (at_ p ls) = true /\
   forall j : Z, ls < j < wlength p -> IsSeparator (at_ p j) = false).
Proof.
  cbv zeta. unfold find_last_of.
  destruct (find_last_from_spec p 0 npos) as [H | (Hr & Hs & Ha)].
  - left. exact H.
  - right. rewrite Z.sub_0_r in Hs. split; [lia |]. split; [exact Hs |].
    intros j Hj. specialize (Ha j). rewrite Z.sub_0_r in Ha.
    apply Ha. lia.
Qed.

Lemma FindDriveLetter_inv (p : wstring) :
  FindDriveLetter p = 1 ->
  2 <= wlength p /\ at_ p 1 = 58 /\ is_drive_letter (at_ p 0) = true.
Proof.
  intros H. unfold FindDriveLetter in H. unfold is_drive_letter.
  destruct (wlength p >=? 2) eqn:Hlen; [| discriminate].
  destruct (at_ p 1 =? 58) eqn:Hc; [| discriminate].
  cbn [andb] in H.
  destruct (((at_ p 0 >=? 65) && (at_ p 0 <=? 90)) ||
            ((at_ p 0 >=? 97) && (at_ p 0 <=? 122))); [| discriminate].
  zbool. auto.
Qed.

(** With a separator in first place there is no drive letter. *)
Lemma FindDriveLetter_rooted (p : wstring) :
  IsSeparator (at_ p 0) = true -> FindDriveLetter p = npos.
Proof.
  intros H. destruct (FindDriveLetter_cases p) as [Hd | Hn]; [| exact Hn].
  destruct (FindDriveLetter_inv p Hd) as (_ & _ & Hl).
  rewrite (letter_no_separator _ Hl) in H. discriminate.
Qed.

(** The cut is a prefix of the stripped path; it keeps the drive letter,
    and it keeps the root when the path has one. *)
Lemma parent_cut_firstn (p : wstring) :
  exists k : nat,
    parent_cut p = firstn k p /\ (k <= length p)%nat /\
    (FindDriveLetter p = 1 -> (2 <= k)%nat) /\
    (wlength p < npos ->
     IsSeparator (at_ p (strip_start p - 1)) = true ->
     strip_start p <= Z.of_nat k).
Proof.
  unfold parent_cut. cbv zeta.
  pose proof npos_value as Hnpos.
  pose proof (last_separator_found p) as Hls. cbv zeta in Hls.
  set (ls := find_last_of p kSeparators (kSeparatorsLength - 1)) in *.
  assert (Hwl : wlength p = Z.of_nat (length p)) by reflexivity.
  destruct (FindDriveLetter_cases p) as [Hl | Hl].
  - (* a drive letter *)
    destruct (FindDriveLetter_inv p Hl) as (Hlen & Hcolon & Hletter).
    assert (Hstart : strip_start p = 3)
      by (apply (proj1 (strip_start_drive_iff p)); exact Hl).
    assert (H0 : IsSeparator (at_ p 0) = false)
      by (apply letter_no_separator; exact Hletter).
    assert (H1 : IsSeparator (at_ p 1) = false)
      by (rewrite Hcolon; reflexivity).
    rewrite Hl, Hstart.
    change (wrap (1 + 1)) with 2. change (wrap (1 + 2)) with 3.
    change (wrap (1 + 3)) with 4. change (3 - 1) with 2.
    destruct (ls =? npos) eqn:E0.
    { exists 2%nat. rewrite resize_cut by lia.
      split; [reflexivity |]. split; [lia |]. split; [lia |].
      intros Hmax Hroot. exfalso. zbool.
      destruct Hls as [[Hplain _] | (Hr & _)].
      - rewrite (plain_at p Hplain) in Hroot. discriminate.
      - lia. }
    zbool. destruct Hls as [[_ Hn] | (Hr & Hsep & Hafter)]; [contradiction |].
    assert (Hls2 : 2 <= ls).
    { destruct (Z.eq_dec ls 0) as [E | E];
        [rewrite E, H0 in Hsep; discriminate |].
      destruct (Z.eq_dec ls 1) as [E' | E'];
        [rewrite E', H1 in Hsep; discriminate | lia]. }
    destruct (ls =? 2) eqn:E2.
    { exists 3%nat. zbool. rewrite resize_cut by lia.
      split; [reflexivity |]. repeat split; lia. }
    destruct ((ls =? 3) && IsSeparator (at_ p 2)) eqn:E3.
    { exists 4%nat. apply andb_true_iff in E3. destruct E3 as [E3 _].
      zbool. rewrite resize_cut by lia.
      split; [reflexivity |]. repeat split; lia. }
    replace (ls =? 0) with false by (symmetry; apply Z.eqb_neq; lia).
    cbn [negb]. exists (Z.to_nat ls). zbool.
    rewrite resize_cut by lia.
    split; [reflexivity |]. repeat split; lia.
  - (* no drive letter *)
    assert (Hstart : strip_start p = 1)
      by (apply (proj2 (strip_start_drive_iff p)); exact Hl).
    rewrite Hl, Hstart.
    change (wrap (npos + 1)) with 0. change (wrap (npos + 2)) with 1.
    change (wrap (npos + 3)) with 2. change (1 - 1) with 0.
    destruct (ls =? npos) eqn:E0.
    { exists 0%nat. rewrite resize_cut by lia.
      split; [reflexivity |]. split; [lia |].
      split; [intros H; rewrite Hnpos in H; discriminate |].
      intros Hmax Hroot. exfalso. zbool.
      destruct Hls as [[Hplain _] | (Hr & _)].
      - rewrite (plain_at p Hplain) in Hroot. discriminate.
      - lia. }
    zbool. destruct Hls as [[_ Hn] | (Hr & Hsep & Hafter)]; [contradiction |].
    destruct (ls =? 0) eqn:E1.
    { exists 1%nat. zbool. rewrite resize_cut by lia.
      split; [reflexivity |]. split; [lia |].
      split; [intros H; rewrite Hnpos in H; discriminate | lia]. }
    zbool.
    destruct ((ls =? 1) && IsSeparator (at_ p 0)) eqn:E3.
    { exists 2%nat. apply andb_true_iff in E3. destruct E3 as [E3 _].
      zbool. rewrite resize_cut by lia.
      split; [reflexivity |]. split; [lia |].
      split; [intros H; rewrite Hnpos in H; discriminate | lia]. }
    cbn [negb]. exists (Z.to_nat ls).
    rewrite resize_cut by lia.
    split; [reflexivity |]. split; [lia |].
    split; [intros H; rewrite Hnpos in H; discriminate | lia].
Qed.

Lemma GetParent_prefix (path : wstring) :
  GetParent path = kCurrentDirectory \/
  exists rest : wstring, path = GetParent path ++ rest.
Proof.
  rewrite GetParent_steps. cbv zeta.
  destruct (wlength _ =? 0); [left; reflexivity | right].
  destruct (parent_cut_firstn (StripTrailingSeparators path))
    as (k & Hcut & _).
  rewrite Hcut.
  destruct (strip_suffix path) as [s1 [E1 _]].
  set (p := StripTrailingSeparators path) in *.
  destruct (strip_suffix (firstn k p)) as [s2 [E2 _]].
  exists (s2 ++ skipn k p ++ s1).
  rewrite app_assoc, <- E2, app_assoc, firstn_skipn. exact E1.
Qed.

(** X8: [GetParent] invents nothing: what it returns is either the marker
    "." or a prefix of the path it was given, so no unit is ever padded in
    by one of its [resize] calls. *)
Theorem GetParent_prefix_or_dot (path : wstring) :
  GetParent path = kCurrentDirectory \/
  exists rest : wstring, path = GetParent path ++ rest.
Proof. exact (GetParent_prefix path). Qed.

Lemma firstn_firstn_le (n k : nat) (p : wstring) :
  (n <= k)%nat -> firstn n (firstn k p) = firstn n p.
Proof. intros H. rewrite firstn_firstn. f_equal. lia. Qed.

(** The first [n] units survive [GetParent] when they lie below the start
    boundary and the cut does not go below them. *)
Lemma GetParent_keeps_firstn (path : wstring) (n : nat) :
  (0 < n)%nat -> (n <= length path)%nat ->
  Z.of_nat n <= strip_start path ->
  (forall k : nat,
      parent_cut (StripTrailingSeparators path) =
        firstn k (StripTrailingSeparators path) ->
      strip_start (firstn k (StripTrailingSeparators path)) =
        strip_start path /\ (n <= k)%nat) ->
  firstn n (GetParent path) = firstn n path.
Proof.
  intros Hn Hlen Hstart Hk.
  destruct (parent_cut_firstn (StripTrailingSeparators path))
    as (k & Hcut & _).
  destruct (Hk k Hcut) as [Hs Hnk].
  rewrite GetParent_steps. cbv zeta. rewrite Hcut.
  set (p := StripTrailingSeparators path) in *.
  assert (H1 : firstn n p = firstn n path).
  { pose proof (strip_keeps_below_start path) as H. fold p in H.
    apply (f_equal (firstn n)) in H.
    rewrite !firstn_firstn_le in H by lia. exact H. }
  assert (H2 : firstn n (StripTrailingSeparators (firstn k p)) =
               firstn n (firstn k p)).
  { pose proof (strip_keeps_below_start (firstn k p)) as H.
    rewrite Hs in H. apply (f_equal (firstn n)) in H.
    rewrite !(firstn_firstn_le n (Z.to_nat (strip_start path))) in H by lia.
    exact H. }
  rewrite firstn_firstn_le in H2 by exact Hnk.
  assert (Hne : (wlength (StripTrailingSeparators (firstn k p)) =? 0)
                = false).
  { apply Z.eqb_neq. unfold wlength.
    destruct (StripTrailingSeparators (firstn k p)) as [| c r] eqn:E;
      [| cbn [length]; lia].
    exfalso. rewrite H1 in H2. rewrite firstn_nil in H2.
    destruct path; [cbn in Hlen; lia |].
    destruct n; [lia | discriminate]. }
  rewrite Hne, H2, H1. reflexivity.
Qed.

(** X9: the drive letter always remains in the output: when the path has a
    drive letter, its parent begins with the same letter and colon, and
    has that drive letter too. *)
Theorem GetParent_keeps_drive_letter (path : wstring) :
  FindDriveLetter path = 1 ->
  firstn 2 (GetParent path) = firstn 2 path /\
  FindDriveLetter (GetParent path) = 1.
Proof.
  intros Hd.
  destruct (FindDriveLetter_inv path Hd) as (Hlen & Hcolon & Hletter).
  assert (Hstart : strip_start path = 3)
    by (apply (proj1 (strip_start_drive_iff path)); exact Hd).
  assert (Hp : FindDriveLetter (StripTrailingSeparators path) = 1).
  { apply (proj1 (strip_start_drive_iff _)).
    rewrite strip_start_strip. exact Hstart. }
  assert (H2 : firstn 2 (GetParent path) = firstn 2 path).
  { apply GetParent_keeps_firstn.
    - lia.
    - unfold wlength in Hlen. lia.
    - lia.
    - intros k Hcut.
      destruct (parent_cut_firstn (StripTrailingSeparators path))
        as (k' & Hcut' & Hk' & Hdrive & _).
      specialize (Hdrive Hp).
      assert (Hkk : firstn k (StripTrailingSeparators path) =
                    firstn k' (StripTrailingSeparators path))
        by (rewrite <- Hcut, <- Hcut'; reflexivity).
      rewrite Hkk.
      assert (Hk2 : (2 <= k)%nat).
      { apply (f_equal (@length Z)) in Hkk.
        rewrite !length_firstn in Hkk. lia. }
      split; [| exact Hk2].
      rewrite <- (strip_start_strip path).
      rewrite <- (firstn_skipn k' (StripTrailingSeparators path)) at 2.
      symmetry. apply strip_start_app.
      unfold wlength. rewrite length_firstn. lia. }
  split; [exact H2 |].
  destruct (GetParent path) as [| a [| b g]] eqn:Eg;
    destruct path as [| l [| c path]];
    unfold wlength in Hlen; cbn [length] in Hlen; try lia;
    cbn [firstn] in H2; try discriminate.
  injection H2 as Ha Hb. subst a b.
  change (at_ (l :: c :: path) 1) with c in Hcolon.
  change (at_ (l :: c :: path) 0) with l in Hletter.
  subst c. apply FindDriveLetter_drive. exact Hletter.
Qed.

Lemma GetParent_keeps_drive_letter_witness :
  firstn 2 (GetParent (L "c:readme.txt")) = L "c:" /\
  FindDriveLetter (GetParent (L "c:readme.txt")) = 1.
Proof.
  apply (GetParent_keeps_drive_letter (L "c:readme.txt")). reflexivity.
Defined.

(** X10: a rooted path has a rooted parent: when a separator stands right
    below the start boundary (first in the path, or right behind the drive
    letter and colon), the parent begins with the same units up to and
    including that separator. *)
Theorem GetParent_keeps_root (path : wstring) :
  wlength path < npos ->
  IsSeparator (at_ path (strip_start path - 1)) = true ->
  firstn (Z.to_nat (strip_start path)) (GetParent path) =
  firstn (Z.to_nat (strip_start path)) path.
Proof.
  intros Hmax Hroot.
  pose proof (strip_start_cases path) as Hs.
  assert (Hlen : strip_start path <= wlength path).
  { destruct (Z.le_gt_cases (strip_start path) (wlength path))
      as [H | H]; [exact H | exfalso].
    unfold at_ in Hroot. rewrite nth_overflow in Hroot
      by (unfold wlength in H; lia).
    discriminate. }
  set (p := StripTrailingSeparators path).
  assert (Hps : strip_start p = strip_start path)
    by apply strip_start_strip.
  assert (Hplen : strip_start path <= wlength p).
  { pose proof (strip_floor path) as H. fold p in H. lia. }
  assert (Hpmax : wlength p < npos).
  { destruct (strip_suffix path) as [suffix [E _]]. fold p in E.
    apply (f_equal (@length Z)) in E. rewrite length_app in E.
    unfold wlength in *. lia. }
  assert (Hproot : IsSeparator (at_ p (strip_start path - 1)) = true).
  { destruct (strip_suffix path) as [suffix [E _]]. fold p in E.
    rewrite <- (at_app p suffix) by lia. rewrite <- E. exact Hroot. }
  apply GetParent_keeps_firstn.
  - lia.
  - unfold wlength in Hlen. lia.
  - lia.
  - fold p. intros k Hcut.
    destruct (parent_cut_firstn p) as (k' & Hcut' & Hk' & _ & Hrooted).
    rewrite Hps in Hrooted. specialize (Hrooted Hpmax Hproot).
    assert (Hkk : firstn k p = firstn k' p)
      by (rewrite <- Hcut, <- Hcut'; reflexivity).
    assert (Hk : (Z.to_nat (strip_start path) <= k)%nat).
    { apply (f_equal (@length Z)) in Hkk.
      rewrite !length_firstn in Hkk. unfold wlength in Hplen. lia. }
    split; [| exact Hk].
    rewrite Hkk. rewrite <- Hps.
    destruct Hs as [H3 | H1].
    + rewrite <- (firstn_skipn k' p) at 2.
      symmetry. apply strip_start_app.
      unfold wlength. rewrite length_firstn. lia.
    + rewrite Hps, H1.
      apply (proj2 (strip_start_drive_iff _)).
      apply FindDriveLetter_rooted.
      rewrite at_firstn by lia.
      rewrite H1 in Hproot. exact Hproot.
Qed.

Lemma GetParent_keeps_root_witness :
  firstn 3 (GetParent (L "C:\Program Files\App\plugin.dll")) = L "C:\" /\
  firstn 1 (GetParent (L "/usr/lib/libm.so")) = L "/".
Proof.
  split.
  - apply (GetParent_keeps_root (L "C:\Program Files\App\plugin.dll"));
      reflexivity.
  - apply (GetParent_keeps_root (L "/usr/lib/libm.so")); reflexivity.
Defined.

(** X11: the test [last_separator != 0] that guards the last [resize] of
    [GetParent] never fails: a last separator in first place is always
    handled as the root directory before, so the branch that would leave
    the path as it is cannot be taken, and the cut is what the chain gives
    without that test. *)
Theorem GetParent_last_test_never_fails (path : wstring) :
  let letter := FindDriveLetter path in
  let last_separator :=
    find_last_of path kSeparators (kSeparatorsLength - 1) in
  ((last_separator =? npos) = false ->
   (last_separator =? wrap (letter + 1)) = false ->
   (last_separator =? 0) = false) /\
  parent_cut path =
    if last_separator =? npos then resize path (wrap (letter + 1))
    else if last_separator =? wrap (letter + 1)
    then resize path (wrap (letter + 2))
    else if (last_separator =? wrap (letter + 2)) &&
            IsSeparator (at_ path (wrap (letter + 1)))
    then resize path (wrap (letter + 3))
    else resize path last_separator.
Proof.
  cbv zeta.
  assert (H : (find_last_of path kSeparators (kSeparatorsLength - 1)
                 =? npos) = false ->
              (find_last_of path kSeparators (kSeparatorsLength - 1)
                 =? wrap (FindDriveLetter path + 1)) = false ->
              (find_last_of path kSeparators (kSeparatorsLength - 1)
                 =? 0) = false).
  { intros Hn Hr. apply Z.eqb_neq. intros E0.
    pose proof (last_separator_found path) as Hls. cbv zeta in Hls.
    rewrite E0 in Hls, Hr.
    destruct Hls as [[_ Hp] | (_ & Hsep & _)];
      [rewrite npos_value in Hp; discriminate |].
    rewrite (FindDriveLetter_rooted path Hsep) in Hr.
    discriminate. }
  split; [exact H |].
  unfold parent_cut. cbv zeta.
  destruct (find_last_of path kSeparators (kSeparatorsLength - 1) =? npos)
    eqn:E1; [reflexivity |].
  destruct (find_last_of path kSeparators (kSeparatorsLength - 1)
              =? wrap (FindDriveLetter path + 1)) eqn:E2; [reflexivity |].
  rewrite (H eq_refl eq_refl). reflexivity.
Qed.

Lemma GetParent_last_test_never_fails_witness :
  (find_last_of (L "a/b") kSeparators (kSeparatorsLength - 1) =? 0) = false.
Proof.
  apply (proj1 (GetParent_last_test_never_fails (L "a/b"))); reflexivity.
Defined.

(** ** Dropping the basename *)

Lemma at_app_r (p q : wstring) (i : Z) :
  wlength p <= i -> at_ (p ++ q) i = at_ q (i - wlength p).
Proof.
  intros H. unfold at_, wlength in *.
  rewrite app_nth2 by lia. f_equal. lia.
Qed.

Lemma last_separator_is (pre name : wstring) (s : wchar_t) :
  IsSeparator s = true -> plain name = true ->
  find_last_of (pre ++ s :: name) kSeparators (kSeparatorsLength - 1) =
  wlength pre.
Proof.
  intros Hs Hplain.
  pose proof (last_separator_found (pre ++ s :: name)) as Hls.
  cbv zeta in Hls.
  set (ls := find_last_of (pre ++ s :: name) kSeparators
               (kSeparatorsLength - 1)) in *.
  assert (Hpos : 0 <= wlength pre) by (unfold wlength; lia).
  assert (Hat : at_ (pre ++ s :: name) (wlength pre) = s).
  { rewrite at_app_r by lia. rewrite Z.sub_diag. reflexivity. }
  assert (Hlen : wlength (pre ++ s :: name) = wlength pre + 1 + wlength name).
  { unfold wlength. rewrite length_app. cbn [length]. lia. }
  destruct Hls as [[Hp _] | (Hr & Hsep & Hafter)].
  - pose proof (plain_at _ Hp (wlength pre)) as Hc.
    rewrite Hat, Hs in Hc. discriminate.
  - destruct (Z.lt_trichotomy ls (wlength pre)) as [Hlt | [Heq | Hgt]].
    + exfalso. assert (Hn : 0 <= wlength name) by (unfold wlength; lia).
      assert (Hc : IsSeparator (at_ (pre ++ s :: name) (wlength pre))
                   = false) by (apply Hafter; lia).
      rewrite Hat, Hs in Hc. discriminate.
    + exact Heq.
    + exfalso. rewrite at_app_r in Hsep by lia.
      rewrite at_cons in Hsep by lia.
      rewrite (plain_at name Hplain) in Hsep. discriminate.
Qed.

(** X12: [GetParent] drops the basename: for a directory that is not empty,
    does not end in a separator and is not a bare drive, followed by one
    separator and a name without separators, the parent is the directory. *)
Theorem GetParent_drops_basename (pre name : wstring) (s : wchar_t) :
  IsSeparator s = true -> plain name = true -> name <> [] ->
  pre <> [] -> IsSeparator (last pre 0) = false ->
  (FindDriveLetter pre = 1 -> wlength pre <> 2) ->
  wlength pre < npos ->
  GetParent (pre ++ s :: name) = pre.
Proof.
  intros Hs Hplain Hname Hpre Hlast Hbare Hmax.
  pose proof npos_value as Hnpos.
  assert (Hlen : 1 <= wlength pre).
  { destruct pre; [contradiction | unfold wlength; cbn [length]; lia]. }
  assert (Hstrip : StripTrailingSeparators (pre ++ s :: name) =
                   pre ++ s :: name).
  { apply strip_keeps_plain.
    change (pre ++ s :: name) with (pre ++ [s] ++ name).
    rewrite app_assoc. apply last_plain; assumption. }
  assert (Hkeep : StripTrailingSeparators pre = pre)
    by (apply strip_keeps_plain; exact Hlast).
  assert (Hletter : FindDriveLetter (pre ++ s :: name) = FindDriveLetter pre).
  { destruct (Z.le_gt_cases 2 (wlength pre)) as [H | H].
    - apply FindDriveLetter_app. exact H.
    - rewrite (FindDriveLetter_short pre) by exact H.
      destruct pre as [| c [| c' pre]];
        unfold wlength in *; cbn [length] in *; try lia.
      cbn [app]. unfold FindDriveLetter.
      change (at_ (c :: s :: name) 1) with s.
      replace (s =? 58) with false;
        [rewrite andb_false_r; reflexivity |].
      symmetry. apply Z.eqb_neq. intros E. subst s. discriminate. }
  assert (Hprev : at_ (pre ++ s :: name) (wlength pre - 1) = last pre 0).
  { rewrite at_app by lia.
    destruct (length pre) as [| n] eqn:Hn;
      [unfold wlength in Hlen; rewrite Hn in Hlen; lia |].
    rewrite <- (at_last pre n Hn). f_equal. unfold wlength. lia. }
  assert (Hcut : parent_cut (pre ++ s :: name) = pre).
  { unfold parent_cut. cbv zeta.
    rewrite (last_separator_is pre name s Hs Hplain), Hletter.
    assert (Hres : resize (pre ++ s :: name) (wlength pre) = pre).
    { rewrite resize_cut.
      - unfold wlength. rewrite Nat2Z.id, firstn_prefix by lia.
        apply firstn_all.
      - unfold wlength. rewrite length_app. lia. }
    replace (wlength pre =? npos) with false
      by (symmetry; apply Z.eqb_neq; lia).
    replace (wlength pre =? 0) with false
      by (symmetry; apply Z.eqb_neq; lia).
    cbn [negb].
    destruct (FindDriveLetter_cases pre) as [Hd | Hn]; rewrite Hd || rewrite Hn.
    - change (wrap (1 + 1)) with 2. change (wrap (1 + 2)) with 3.
      replace (wlength pre =? 2) with false
        by (symmetry; apply Z.eqb_neq; apply Hbare; exact Hd).
      destruct (wlength pre =? 3) eqn:E3.
      + zbool. replace 2 with (wlength pre - 1) by lia.
        rewrite Hprev, Hlast. exact Hres.
      + exact Hres.
    - change (wrap (npos + 1)) with 0. change (wrap (npos + 2)) with 1.
      replace (wlength pre =? 0) with false
        by (symmetry; apply Z.eqb_neq; lia).
      destruct (wlength pre =? 1) eqn:E1.
      + zbool. replace 0 with (wlength pre - 1) by lia.
        rewrite Hprev, Hlast. exact Hres.
      + exact Hres. }
  rewrite GetParent_steps. cbv zeta. rewrite Hstrip, Hcut, Hkeep.
  replace (wlength pre =? 0) with false
    by (symmetry; apply Z.eqb_neq; lia).
  reflexivity.
Qed.

Lemma GetParent_drops_basename_witness :
  GetParent (L "C:\plugins\x64" ++ 92 :: L "foo.dll") = L "C:\plugins\x64".
Proof.
  apply GetParent_drops_basename; try reflexivity; discriminate.
Defined.

(** X13: the three short cases of [GetParent], for every drive letter [l],
    separator [s] and name without separators: a name behind a bare drive
    has the drive as parent, a name behind a drive root has the drive root
    as parent, and a name behind a root separator has the root as parent. *)
Theorem GetParent_of_top_level_names (l s : wchar_t) (name : wstring) :
  is_drive_letter l = true -> IsSeparator s = true -> plain name = true ->
  GetParent (l :: 58 :: name) = [l; 58] /\
  GetParent (l :: 58 :: s :: name) = [l; 58; s] /\
  GetParent (s :: name) = [s].
Proof.
  intros Hl Hs Hplain.
  split; [apply GetParent_drive_relative; assumption |].
  split; [apply GetParent_drive_root_child; assumption |].
  apply GetParent_root_child; assumption.
Qed.

Lemma GetParent_of_top_level_names_witness :
  GetParent (L "d:notes.txt") = L "d:" /\
  GetParent (L "d:/notes.txt") = L "d:/" /\
  GetParent (L "/notes.txt") = L "/".
Proof.
  apply (GetParent_of_top_level_names 100 47 (L "notes.txt")); reflexivity.
Defined.

(** ** Walking up *)

Lemma GetParent_step (path : wstring) :
  GetParent path = path \/ GetParent path = kCurrentDirectory \/
  (length (GetParent path) < length path)%nat.
Proof.
  destruct (GetParent_prefix path) as [H | [rest H]]; [auto |].
  destruct rest as [| c rest].
  - left. rewrite app_nil_r in H. symmetry. exact H.
  - right. right. apply (f_equal (@length Z)) in H.
    rewrite length_app in H. cbn [length] in H. lia.
Qed.

Lemma iter_fixed (path : wstring) (n : nat) :
  GetParent path = path -> Nat.iter n GetParent path = path.
Proof.
  intros H. induction n as [| n IH]; [reflexivity |].
  rewrite Nat.iter_succ, IH. exact H.
Qed.

Lemma walk_up_reaches_fixed_point (n : nat) :
  forall path : wstring,
    (length path <= n)%nat ->
    GetParent (Nat.iter (S n) GetParent path) =
    Nat.iter (S n) GetParent path.
Proof.
  assert (Hdot : GetParent kCurrentDirectory = kCurrentDirectory)
    by reflexivity.
  induction n as [| n IH]; intros path Hlen; rewrite Nat.iter_succ_r;
    destruct (GetParent_step path) as [Hfix | [Hd | Hlt]].
  - rewrite Hfix. exact Hfix.
  - rewrite Hd. exact Hdot.
  - lia.
  - rewrite Hfix, (iter_fixed path (S n) Hfix). exact Hfix.
  - rewrite Hd, (iter_fixed _ (S n) Hdot). exact Hdot.
  - apply IH. lia.
Qed.

(** X24: walking up with [GetParent] comes to rest: from any path, after at
    most one step more than the path has units, the path reached is its own
    parent, so a caller that climbs until nothing changes always stops. *)
Theorem GetParent_walk_terminates (path : wstring) :
  let top := Nat.iter (S (length path)) GetParent path in
  GetParent top = top.
Proof.
  cbv zeta. apply walk_up_reaches_fixed_point. lia.
Qed.

(** * Further properties of the calls into the operating system *)

Lemma wstring_of_buffer_spec (buffer : wstring) :
  (exists rest, buffer = wstring_of_buffer buffer ++ rest) /\
  ~ In 0 (wstring_of_buffer buffer).
Proof.
  induction buffer as [| c buffer [[rest IH1] IH2]].
  - split; [exists []; reflexivity | intros []].
  - cbn [wstring_of_buffer]. destruct (c =? 0) eqn:E.
    + split; [exists (c :: buffer); reflexivity | intros []].
    + zbool. split.
      * exists rest. cbn [app]. rewrite <- IH1. reflexivity.
      * intros [H | H]; [congruence | exact (IH2 H)].
Qed.

Section MoreOSFacts.

Context {OS : Type} (api : Api OS).

(** X14: [GetCurrentDirectory] asks the OS once, with a buffer of
    [MAX_PATH] units.  When the OS answers the length 0 or a length above
    [MAX_PATH] it returns false and leaves the directory of the caller as
    it was; otherwise it returns true with a directory that is a prefix of
    the text in the buffer, holds no null unit and has nothing left to
    strip. *)
Theorem GetCurrentDirectory_outcome (dir : wstring) (w : World OS) :
  let answer := fst (sys_GetCurrentDirectory api MAX_PATH (os_state w)) in
  after (GetCurrentDirectory api dir) w =
    mkWorld (os_after_get api w)
            (calls w ++ [CallGetCurrentDirectory MAX_PATH]) /\
  (fst answer = 0 \/ MAX_PATH < fst answer ->
   result (GetCurrentDirectory api dir) w = (false, dir)) /\
  (fst answer <> 0 -> fst answer <= MAX_PATH ->
   exists d : wstring,
     result (GetCurrentDirectory api dir) w = (true, d) /\
     (exists rest, snd answer = d ++ rest) /\
     ~ In 0 d /\
     StripTrailingSeparators d = d).
Proof.
  cbv zeta. unfold after, result. rewrite GetCurrentDirectory_eq.
  cbn [fst snd]. split; [reflexivity |]. split.
  - intros H.
    replace ((fst (fst (sys_GetCurrentDirectory api MAX_PATH (os_state w)))
                =? 0) ||
             (fst (fst (sys_GetCurrentDirectory api MAX_PATH (os_state w)))
                >? MAX_PATH)) with true; [reflexivity |].
    symmetry. apply orb_true_iff. destruct H as [H | H].
    + left. apply Z.eqb_eq. exact H.
    + right. apply Z.gtb_lt. exact H.
  - intros Hn Hle.
    replace ((fst (fst (sys_GetCurrentDirectory api MAX_PATH (os_state w)))
                =? 0) ||
             (fst (fst (sys_GetCurrentDirectory api MAX_PATH (os_state w)))
                >? MAX_PATH)) with false.
    + eexists. split; [reflexivity |].
      destruct (wstring_of_buffer_spec
                  (snd (fst (sys_GetCurrentDirectory api MAX_PATH
                               (os_state w))))) as [[rest Hrest] Hnul].
      destruct (strip_suffix
                  (wstring_of_buffer
                     (snd (fst (sys_GetCurrentDirectory api MAX_PATH
                                  (os_state w)))))) as [suffix [Hs _]].
      split; [| split].
      * exists (suffix ++ rest). rewrite app_assoc, <- Hs. exact Hrest.
      * intros Hin. apply Hnul. rewrite Hs. apply in_or_app. left.
        exact Hin.
      * apply strip_idem.
    + symmetry. apply orb_false_iff. split.
      * apply Z.eqb_neq. exact Hn.
      * rewrite Z.gtb_ltb. apply Z.ltb_ge. exact Hle.
Qed.

(** X15: an instance built from a path holds what the load returned and no
    name, and building it makes the calls of the load and no other; it is
    valid exactly when the load did not return null, and after a failed
    load every [GetFunctionPointer] returns null. *)
Theorem DynamicLibrary_of_path_outcome (path : wstring) (w : World OS) :
  let this := result (DynamicLibrary_of_path api path) w in
  let loaded := result (LoadLibrary api path None) w in
  this = mkDynamicLibrary [] loaded /\
  after (DynamicLibrary_of_path api path) w =
    after (LoadLibrary api path None) w /\
  (forall w' : World OS,
      result (is_valid api this) w' = negb (loaded =? nullptr)) /\
  (loaded = nullptr ->
   forall (w' : World OS) (function_name : option string),
     result (GetFunctionPointer api this function_name) w' = nullptr).
Proof.
  cbv zeta.
  assert (E : DynamicLibrary_of_path api path w =
              (mkDynamicLibrary [] (result (LoadLibrary api path None) w),
               after (LoadLibrary api path None) w)).
  { unfold DynamicLibrary_of_path, result, after. rewrite bind_eq.
    reflexivity. }
  assert (Hthis : result (DynamicLibrary_of_path api path) w =
                  mkDynamicLibrary [] (result (LoadLibrary api path None) w))
    by (unfold result at 1; rewrite E; reflexivity).
  assert (Hafter : after (DynamicLibrary_of_path api path) w =
                   after (LoadLibrary api path None) w)
    by (unfold after at 1; rewrite E; reflexivity).
  rewrite Hthis.
  split; [reflexivity |]. split; [exact Hafter |]. split.
  - intros w'. rewrite is_valid_result.
    cbn [library_ library_name_ empty negb andb]. apply orb_false_r.
  - intros Hnull w' function_name.
    rewrite GetFunctionPointer_result, is_valid_result, Hnull.
    reflexivity.
Qed.

Lemma is_valid_eq (this : DynamicLibrary) (w : World OS) :
  is_valid api this w =
  if negb (library_ this =? nullptr) then (true, w)
  else if empty (library_name_ this) then (false, w)
  else (resident api (library_name_ this) (os_state w),
        mkWorld (os_state w)
                (calls w ++ [CallGetModuleHandle (library_name_ this)])).
Proof.
  unfold is_valid. destruct (negb (library_ this =? nullptr));
    [reflexivity |].
  apply WellKnownLibrary_eq.
Qed.

Lemma by_name_eq (library_name : wstring) (n : string) (w : World OS) :
  GetFunctionPointerFromNativeLibrary_by_name api library_name (Some n) w =
  let h := sys_GetModuleHandle api library_name (os_state w) in
  if nullptr =? h
  then (nullptr,
        mkWorld (os_state w) (calls w ++ [CallGetModuleHandle library_name]))
  else (resolve api h n (os_state w),
        mkWorld (os_state w)
                (calls w ++ [CallGetModuleHandle library_name;
                             CallGetProcAddress h n])).
Proof.
  unfold GetFunctionPointerFromNativeLibrary_by_name, bind, query.
  cbv zeta.
  destruct (nullptr =? sys_GetModuleHandle api library_name (os_state w));
    [reflexivity |].
  unfold GetFunctionPointerFromNativeLibrary, query. cbn [os_state calls].
  rewrite <- app_assoc. reflexivity.
Qed.

(** X16: an instance that holds the null handle frees nothing when it is
    destroyed and releases the null handle, staying as it is; when it holds
    no name either (built by default, released, or built from a failed
    load), [is_valid] is false and both member [GetFunctionPointer]
    variants return null, all without a single call to the OS. *)
Theorem empty_instance_never_calls_the_OS (this : DynamicLibrary)
    (w : World OS) :
  library_ this = nullptr ->
  DynamicLibrary_destroy api this w = (tt, w) /\
  Release this = (nullptr, this) /\
  (owned_mode this = true ->
   is_valid api this w = (false, w) /\
   (forall function_name : option string,
       GetFunctionPointer api this function_name w = (nullptr, w)) /\
   (forall InterfaceName : string,
       GetFunctionPointer_typed api this InterfaceName w = (nullptr, w))).
Proof.
  intros Hnull. destruct this as [name library].
  cbn [library_] in Hnull. subst library.
  split; [reflexivity |]. split; [reflexivity |].
  unfold owned_mode. cbn [library_name_]. intros Hname.
  destruct name; [| discriminate].
  split; [reflexivity |]. split; [reflexivity |].
  intros InterfaceName. unfold GetFunctionPointer_typed, bind.
  cbn. destruct (string_empty InterfaceName); reflexivity.
Qed.

(** X17: [is_valid] does not ask the OS while a handle is held; when the
    handle is null and a name is held it asks [GetModuleHandle] on every
    call, so two calls in a row leave two entries in the log: nothing is
    cached. *)
Theorem is_valid_asks_every_time (this : DynamicLibrary) (w : World OS) :
  (library_ this <> nullptr -> is_valid api this w = (true, w)) /\
  (library_ this = nullptr -> library_name_ this <> [] ->
   is_valid api this w =
     (resident api (library_name_ this) (os_state w),
      mkWorld (os_state w)
              (calls w ++ [CallGetModuleHandle (library_name_ this)])) /\
   calls (after (is_valid api this) (after (is_valid api this) w)) =
     calls w ++ [CallGetModuleHandle (library_name_ this);
                 CallGetModuleHandle (library_name_ this)]).
Proof.
  split.
  - intros Hlive. rewrite is_valid_eq.
    destruct (library_ this =? nullptr) eqn:E; [zbool; contradiction |].
    reflexivity.
  - intros Hnull Hname.
    assert (E : forall w0 : World OS,
               is_valid api this w0 =
               (resident api (library_name_ this) (os_state w0),
                mkWorld (os_state w0)
                  (calls w0 ++ [CallGetModuleHandle (library_name_ this)]))).
    { intros w0. rewrite is_valid_eq, Hnull.
      destruct (library_name_ this); [contradiction | reflexivity]. }
    split; [apply E |].
    unfold after. rewrite !E. cbn [snd calls].
    rewrite <- app_assoc. reflexivity.
Qed.

(** X18: the calls of the untyped [GetFunctionPointer] for a symbol name.
    An instance with a handle and no name asks [GetProcAddress] once on its
    handle.  An instance with a name and the null handle asks
    [GetModuleHandle] to see whether it is valid and stops there with null
    when the module is not resident; when it is, it asks [GetModuleHandle]
    a second time and then [GetProcAddress] on the module found.  An
    instance with both a name and a handle asks [GetModuleHandle] once and
    resolves in the module found, not in its handle. *)
Theorem GetFunctionPointer_calls (this : DynamicLibrary) (n : string)
    (w : World OS) :
  let name := library_name_ this in
  let h := sys_GetModuleHandle api name (os_state w) in
  (library_ this <> nullptr -> name = [] ->
   GetFunctionPointer api this (Some n) w =
     (resolve api (library_ this) n (os_state w),
      mkWorld (os_state w)
              (calls w ++ [CallGetProcAddress (library_ this) n]))) /\
  (library_ this = nullptr -> name <> [] ->
   GetFunctionPointer api this (Some n) w =
     if nullptr =? h
     then (nullptr,
           mkWorld (os_state w) (calls w ++ [CallGetModuleHandle name]))
     else (resolve api h n (os_state w),
           mkWorld (os_state w)
                   (calls w ++ [CallGetModuleHandle name;
                                CallGetModuleHandle name;
                                CallGetProcAddress h n]))) /\
  (library_ this <> nullptr -> name <> [] ->
   GetFunctionPointer api this (Some n) w =
     if nullptr =? h
     then (nullptr,
           mkWorld (os_state w) (calls w ++ [CallGetModuleHandle name]))
     else (resolve api h n (os_state w),
           mkWorld (os_state w)
                   (calls w ++ [CallGetModuleHandle name;
                                CallGetProcAddress h n]))).
Proof.
  cbv zeta. destruct this as [name library]. cbn [library_ library_name_].
  unfold GetFunctionPointer. cbn [library_ library_name_].
  split; [| split].
  - intros Hlive Hname. subst name. rewrite bind_eq, is_valid_eq.
    cbn [library_ library_name_].
    destruct (library =? nullptr) eqn:E; [zbool; contradiction |].
    reflexivity.
  - intros Hnull Hname. subst library. rewrite bind_eq, is_valid_eq.
    cbn [library_ library_name_].
    destruct name as [| c name]; [contradiction |].
    replace (negb (nullptr =? nullptr)) with false by reflexivity.
    cbn [empty fst snd]. unfold resident.
    destruct (nullptr =? sys_GetModuleHandle api (c :: name) (os_state w))
      eqn:E; cbn [negb]; [reflexivity |].
    rewrite by_name_eq. cbv zeta. cbn [os_state calls]. rewrite E.
    rewrite <- app_assoc. reflexivity.
  - intros Hlive Hname. rewrite bind_eq, is_valid_eq.
    cbn [library_ library_name_].
    destruct (library =? nullptr) eqn:E; [zbool; contradiction |].
    destruct name as [| c name]; [contradiction |].
    cbn [negb empty fst snd]. rewrite by_name_eq. reflexivity.
Qed.

(** X19: [Reset] on an instance that holds a handle frees that handle, once
    and before anything else, then holds the new handle and the name it had.
    There is no test for the handle already held: a [Reset] with it frees
    the handle and goes on holding it. *)
Theorem Reset_frees_the_handle_held (this : DynamicLibrary)
    (library : HMODULE) (w : World OS) :
  library_ this <> nullptr ->
  Reset api this library w =
    (mkDynamicLibrary (library_name_ this) library,
     mkWorld (snd (sys_FreeLibrary api (library_ this) (os_state w)))
             (calls w ++ [CallFreeLibrary (library_ this)])) /\
  (library = library_ this ->
   library_ (result (Reset api this library) w) = library_ this /\
   In (CallFreeLibrary (library_ this))
      (calls (after (Reset api this library) w))).
Proof.
  intros Hlive.
  assert (E : Reset api this library w =
              (mkDynamicLibrary (library_name_ this) library,
               mkWorld (snd (sys_FreeLibrary api (library_ this)
                               (os_state w)))
                       (calls w ++ [CallFreeLibrary (library_ this)]))).
  { unfold Reset, UnloadNativeLibrary.
    destruct (library_ this =? nullptr) eqn:E0; [zbool; contradiction |].
    unfold bind, ret. rewrite syscall_eq. reflexivity. }
  split; [exact E |].
  intros Hsame. unfold result, after. rewrite E. cbn [fst snd library_ calls].
  split; [exact Hsame |].
  apply in_or_app. right. left. reflexivity.
Qed.

(** X20: [Reset] and [Release] fit together: [Release] gives back the
    handle the last [Reset] stored; a [Reset] that follows a [Release]
    frees nothing; and a second [Release] returns null and changes
    nothing. *)
Theorem Reset_Release_round_trip (this : DynamicLibrary)
    (library : HMODULE) (w : World OS) :
  fst (Release (result (Reset api this library) w)) = library /\
  Reset api (snd (Release this)) library w =
    (mkDynamicLibrary (library_name_ this) library, w) /\
  Release (snd (Release this)) = (nullptr, snd (Release this)).
Proof.
  split; [| split; reflexivity].
  unfold result, Reset, bind, ret.
  destruct (UnloadNativeLibrary api (library_ this) w). reflexivity.
Qed.

(** X21: the typed member [GetFunctionPointer] returns, for every instance
    and every name, the address the untyped one returns for the same name:
    its own test on the validity and the empty name changes no result. *)
Theorem GetFunctionPointer_typed_is_untyped (this : DynamicLibrary)
    (InterfaceName : string) (w : World OS) :
  result (GetFunctionPointer_typed api this InterfaceName) w =
  result (GetFunctionPointer api this (Some InterfaceName)) w.
Proof.
  unfold GetFunctionPointer_typed.
  unfold result at 1. rewrite bind_eq.
  fold (result (is_valid api this) w). fold (after (is_valid api this) w).
  rewrite (GetFunctionPointer_result api this (Some InterfaceName) w).
  destruct (result (is_valid api this) w) eqn:Hv; cbn [negb andb].
  - fold (result (GetFunctionPointer api this (Some InterfaceName))
            (after (is_valid api this) w)).
    rewrite GetFunctionPointer_result.
    rewrite (is_valid_same_state api this _ w (is_valid_state api this w)),
      Hv.
    rewrite (is_valid_state api this w). reflexivity.
  - destruct (string_empty InterfaceName); [reflexivity |].
    fold (result (GetFunctionPointer api this (Some InterfaceName))
            (after (is_valid api this) w)).
    rewrite GetFunctionPointer_result.
    rewrite (is_valid_same_state api this _ w (is_valid_state api this w)),
      Hv.
    reflexivity.
Qed.

(** X22: the overload of [GetFunctionPointer] on a raw handle tests before
    it calls: with the null handle or the empty name it returns null and
    the OS is not asked; otherwise it asks [GetProcAddress] once, on that
    handle and name, and returns the answer. *)
Theorem GetFunctionPointer_of_handle_calls (library : HMODULE)
    (InterfaceName : string) (w : World OS) :
  (library = nullptr \/ string_empty InterfaceName = true ->
   GetFunctionPointer_of_handle api library InterfaceName w =
     (nullptr, w)) /\
  (library <> nullptr -> string_empty InterfaceName = false ->
   GetFunctionPointer_of_handle api library InterfaceName w =
     (resolve api library InterfaceName (os_state w),
      mkWorld (os_state w)
              (calls w ++ [CallGetProcAddress library InterfaceName]))).
Proof.
  unfold GetFunctionPointer_of_handle. split.
  - intros [H | H].
    + subst library. reflexivity.
    + rewrite H, orb_true_r. reflexivity.
  - intros Hlive Hname. rewrite Hname.
    destruct (library =? nullptr) eqn:E; [zbool; contradiction |].
    reflexivity.
Qed.

(** X23: the resolver by library name asks nothing for the null symbol
    name; for any other it looks the module up once and asks
    [GetProcAddress] only on a module that was found: it never hands the
    null module to [GetProcAddress]. *)
Theorem resolver_by_name_never_asks_the_null_module
    (library_name : wstring) (name : option string) (w : World OS) :
  (name = None ->
   GetFunctionPointerFromNativeLibrary_by_name api library_name name w =
     (nullptr, w)) /\
  (forall n : string,
      name = Some n ->
      sys_GetModuleHandle api library_name (os_state w) = nullptr ->
      GetFunctionPointerFromNativeLibrary_by_name api library_name name w =
        (nullptr,
         mkWorld (os_state w)
                 (calls w ++ [CallGetModuleHandle library_name]))) /\
  (forall n : string,
      In (CallGetProcAddress nullptr n)
         (calls (after (GetFunctionPointerFromNativeLibrary_by_name api
                          library_name name) w)) ->
      In (CallGetProcAddress nullptr n) (calls w)).
Proof.
  split; [intros H; subst name; reflexivity |]. split.
  - intros n Hn Hnull. subst name. rewrite by_name_eq. cbv zeta.
    rewrite Hnull. reflexivity.
  - intros n Hin. destruct name as [n' |]; [| exact Hin].
    unfold after in Hin. rewrite by_name_eq in Hin. cbv zeta in Hin.
    destruct (nullptr =? sys_GetModuleHandle api library_name (os_state w))
      eqn:E; cbn [snd calls] in Hin; apply in_app_or in Hin;
      destruct Hin as [Hin | Hin]; try exact Hin; exfalso.
    + destruct Hin as [Hin | []]. discriminate.
    + destruct Hin as [Hin | [Hin | []]]; [discriminate |].
      injection Hin as Hh _. zbool. congruence.
Qed.

(** X25: [LoadNativeLibraryHelper] works with any loader it is given: it
    hands the loader the library path as it is, once, and returns the
    handle the loader returns.  When the current directory could not be
    captured the loader runs right after that attempt and nothing follows
    it; when it was captured the loader runs after the switch to the parent
    directory and the switch back follows, whatever the switches answer. *)
Theorem LoadNativeLibraryHelper_with_any_loader (path : wstring)
    (load_library_api : wstring -> M OS HMODULE) (w : World OS) :
  let w1 := after (GetCurrentDirectory api []) w in
  let w2 := after (SetCurrentDirectory api (GetParent path)) w1 in
  (captures api w = false ->
   LoadNativeLibraryHelper api path load_library_api w =
     load_library_api path w1) /\
  (captures api w = true ->
   LoadNativeLibraryHelper api path load_library_api w =
     (result (load_library_api path) w2,
      after (SetCurrentDirectory api (captured_directory api w))
            (after (load_library_api path) w2))).
Proof.
  cbv zeta. unfold captures, captured_directory, result, after.
  unfold LoadNativeLibraryHelper. rewrite bind_eq.
  destruct (GetCurrentDirectory api [] w) as [[captured dir] w1].
  cbn [fst snd]. split; intros Hcap; subst captured.
  - unfold bind, ret. destruct (load_library_api path w1). reflexivity.
  - rewrite (GetParent_not_empty path). cbn [negb].
    unfold bind, ret.
    destruct (SetCurrentDirectory api (GetParent path) w1) as [r2 w2].
    cbn [fst snd].
    destruct (load_library_api path w2) as [module w3]. cbn [fst snd].
    destruct (SetCurrentDirectory api dir w3). reflexivity.
Qed.

End MoreOSFacts.

(** ** The further properties on the mock operating system *)

Lemma GetCurrentDirectory_outcome_witness :
  result (GetCurrentDirectory Mock.api (L "kept")) blind_world =
    (false, L "kept") /\
  exists d : wstring,
    result (GetCurrentDirectory Mock.api []) bare_world = (true, d) /\
    StripTrailingSeparators d = d.
Proof.
  pose proof (GetCurrentDirectory_outcome Mock.api (L "kept") blind_world)
    as (_ & Hfail & _).
  pose proof (GetCurrentDirectory_outcome Mock.api [] bare_world)
    as (_ & _ & Hok).
  split.
  - apply Hfail. left. reflexivity.
  - destruct Hok as (d & Hd & _ & _ & Hs).
    + vm_compute. discriminate.
    + vm_compute. discriminate.
    + exists d. split; assumption.
Defined.

Lemma DynamicLibrary_of_path_outcome_witness :
  result (GetFunctionPointer Mock.api
            (result (DynamicLibrary_of_path Mock.api (L "missing.dll"))
                    bare_world)
            (Some "f"%string)) world_with_user32 = nullptr.
Proof.
  apply (proj2 (proj2 (proj2
           (DynamicLibrary_of_path_outcome Mock.api (L "missing.dll")
              bare_world)))).
  reflexivity.
Defined.

Lemma empty_instance_never_calls_the_OS_witness :
  GetFunctionPointer Mock.api (snd (Release (DynamicLibrary_of_handle 4096)))
    (Some "f"%string) world_with_user32 = (nullptr, world_with_user32).
Proof.
  destruct (empty_instance_never_calls_the_OS Mock.api
              (snd (Release (DynamicLibrary_of_handle 4096)))
              world_with_user32 eq_refl) as (_ & _ & Howned).
  destruct (Howned eq_refl) as (_ & Huntyped & _).
  apply Huntyped.
Defined.

Lemma is_valid_asks_every_time_witness :
  is_valid Mock.api (DynamicLibrary_of_handle 4096) world_with_user32 =
    (true, world_with_user32) /\
  calls (after (is_valid Mock.api (DynamicLibrary_of_name (L "user32")))
               (after (is_valid Mock.api
                         (DynamicLibrary_of_name (L "user32")))
                      world_with_user32)) =
    [CallGetModuleHandle (L "user32"); CallGetModuleHandle (L "user32")].
Proof.
  split.
  - apply (proj1 (is_valid_asks_every_time Mock.api
                    (DynamicLibrary_of_handle 4096) world_with_user32)).
    discriminate.
  - apply (proj2 (is_valid_asks_every_time Mock.api
                    (DynamicLibrary_of_name (L "user32"))
                    world_with_user32)).
    + reflexivity.
    + discriminate.
Defined.

Lemma GetFunctionPointer_calls_witness :
  calls (after (GetFunctionPointer Mock.api
                  (DynamicLibrary_of_name (L "user32")) (Some "f"%string))
               world_with_user32) =
    [CallGetModuleHandle (L "user32"); CallGetModuleHandle (L "user32");
     CallGetProcAddress 8192 "f"%string] /\
  calls (after (GetFunctionPointer Mock.api
                  (DynamicLibrary_of_handle 4096) (Some "f"%string))
               world_with_user32) =
    [CallGetProcAddress 4096 "f"%string] /\
  calls (after (GetFunctionPointer Mock.api
                  (mkDynamicLibrary (L "user32") 4096) (Some "f"%string))
               world_with_user32) =
    [CallGetModuleHandle (L "user32"); CallGetProcAddress 8192 "f"%string].
Proof.
  unfold after. split; [| split].
  - rewrite (proj1 (proj2 (GetFunctionPointer_calls Mock.api
                              (DynamicLibrary_of_name (L "user32"))
                              "f"%string world_with_user32)));
      [reflexivity | reflexivity | discriminate].
  - rewrite (proj1 (GetFunctionPointer_calls Mock.api
                      (DynamicLibrary_of_handle 4096)
                      "f"%string world_with_user32));
      [reflexivity | discriminate | reflexivity].
  - rewrite (proj2 (proj2 (GetFunctionPointer_calls Mock.api
                              (mkDynamicLibrary (L "user32") 4096)
                              "f"%string world_with_user32)));
      [reflexivity | discriminate | discriminate].
Defined.

Lemma Reset_frees_the_handle_held_witness :
  calls (after (Reset Mock.api (DynamicLibrary_of_handle 4096) 8192)
               world_with_user32) = [CallFreeLibrary 4096] /\
  library_ (result (Reset Mock.api (DynamicLibrary_of_handle 4096) 4096)
                   world_with_user32) = 4096.
Proof.
  split.
  - unfold after.
    rewrite (proj1 (Reset_frees_the_handle_held Mock.api
                      (DynamicLibrary_of_handle 4096) 8192
                      world_with_user32 ltac:(discriminate))).
    reflexivity.
  - apply (proj2 (Reset_frees_the_handle_held Mock.api
                    (DynamicLibrary_of_handle 4096) 4096
                    world_with_user32 ltac:(discriminate))).
    reflexivity.
Defined.

Lemma GetFunctionPointer_of_handle_calls_witness :
  GetFunctionPointer_of_handle Mock.api 4096 ""%string world_with_user32 =
    (nullptr, world_with_user32) /\
  result (GetFunctionPointer_of_handle Mock.api 4096 "f"%string)
         world_with_user32 = 111.
Proof.
  split.
  - apply (proj1 (GetFunctionPointer_of_handle_calls Mock.api 4096
                    ""%string world_with_user32)).
    right. reflexivity.
  - unfold result.
    rewrite (proj2 (GetFunctionPointer_of_handle_calls Mock.api 4096
                      "f"%string world_with_user32));
      [reflexivity | discriminate | reflexivity].
Defined.

Lemma resolver_by_name_never_asks_the_null_module_witness :
  GetFunctionPointerFromNativeLibrary_by_name Mock.api (L "user32")
    (Some "f"%string) world_without_user32 =
  (nullptr,
   mkWorld (os_state world_without_user32)
           [CallGetModuleHandle (L "user32")]).
Proof.
  apply (proj1 (proj2 (resolver_by_name_never_asks_the_null_module
                         Mock.api (L "user32") (Some "f"%string)
                         world_without_user32)) "f"%string);
    reflexivity.
Defined.

Lemma LoadNativeLibraryHelper_with_any_loader_witness :
  LoadNativeLibraryHelper Mock.api (L "foo.dll")
    (fun _ => Win32.ret 12288) blind_world =
  (12288,
   mkWorld (os_state blind_world) [CallGetCurrentDirectory MAX_PATH]).
Proof.
  rewrite (proj1 (LoadNativeLibraryHelper_with_any_loader Mock.api
                    (L "foo.dll") (fun _ => Win32.ret 12288) blind_world)
             eq_refl).
  reflexivity.
Defined.
